(** * Token acquisition in TeamsFx: the On-Behalf-Of credential and the
      SQL plugin's token parser

    A shallow embedding of

    - [OnBehalfOfUserCredential] (sdk, [credential/onBehalfOfUserCredential.ts]):
      its constructor, [getToken] and [generateAuthServerError];
    - [parseToken] (fx-core, SQL plugin [utils/common.ts]).

    JavaScript values are modelled as far as the code inspects them.  Thrown
    values are the left summand of a sum type.  The MSAL client and the
    process-wide [config] object live in an explicit program state that
    [getToken] threads through a small state-and-exception monad. *)

From Stdlib Require Import ZArith Lia Ascii.
From Stdlib Require String.
From stdpp Require Import base option list strings gmap.

Local Open Scope Z_scope.

(* ===================================================================== *)
(** * JavaScript data *)
(* ===================================================================== *)

(** The scalar JavaScript values a decoded token claim can hold. *)
Inductive JsValue : Type :=
| JUndefined
| JNull
| JBool (b : bool)
| JNumber (n : Z)
| JString (s : string).

#[global] Instance JsValue_eq_dec : EqDecision JsValue.
Proof. solve_decision. Defined.

(** [v === "lit"]: strict equality against a string literal. *)
Definition strictEqString (v : JsValue) (lit : string) : bool :=
  match v with
  | JString s => bool_decide (s = lit)
  | _ => false
  end.

(** A JavaScript object used as a record of claims; a property that is not
    there reads as [undefined]. *)
Definition getProperty (o : gmap string JsValue) (k : string) : JsValue :=
  default JUndefined (o !! k).

(** [!v] for a value of type [string | undefined]: [undefined] and the empty
    string are falsy. *)
Definition falsy (v : option string) : bool :=
  match v with
  | None => true
  | Some s => bool_decide (s = "")
  end.

(** [s.split(sep)] for a one-character separator. *)
Fixpoint split (sep : ascii) (s : string) : list string :=
  match s with
  | EmptyString => [EmptyString]
  | String c rest =>
      if bool_decide (c = sep) then EmptyString :: split sep rest
      else match split sep rest with
           | [] => [String c EmptyString]
           | w :: ws => String c w :: ws
           end
  end.

(** [l.join(sep)] on an array of strings. *)
Definition join (sep : string) (l : list string) : string := String.concat sep l.

(** [s.indexOf(sub)]: the first position of [sub] in [s], or -1. *)
Definition indexOf (s sub : string) : Z :=
  match String.index 0 sub s with
  | Some n => Z.of_nat n
  | None => -1
  end.

(** A [Date]; [getTime] is the number of milliseconds since the epoch. *)
Record Date : Type := mkDate { epochMs : Z }.

Definition getTime (d : Date) : Z := epochMs d.

(** [Math.floor(ms / 1000)] *)
Definition floorSeconds (ms : Z) : Z := ms / 1000.

(** [s.toLowerCase()], on the ASCII letters. *)
Definition toLowerAscii (c : ascii) : ascii :=
  let n := nat_of_ascii c in
  if ((65 <=? n)%nat && (n <=? 90)%nat)%bool then ascii_of_nat (n + 32) else c.

Fixpoint toLowerCase (s : string) : string :=
  match s with
  | EmptyString => EmptyString
  | String c rest => String (toLowerAscii c) (toLowerCase rest)
  end.

(** [s.replace(/[^...]/g, "")]: the characters of the class stay, the others
    go. *)
Fixpoint removeOutside (class : ascii -> bool) (s : string) : string :=
  match s with
  | EmptyString => EmptyString
  | String c rest =>
      if class c then String c (removeOutside class rest)
      else removeOutside class rest
  end.

(** [s[0]] *)
Definition charAt0 (s : string) : option ascii :=
  match s with
  | EmptyString => None
  | String c _ => Some c
  end.

(** [s.slice(n)] for [n >= 0]. *)
Fixpoint slice (n : nat) (s : string) : string :=
  match n, s with
  | O, _ => s
  | S n', EmptyString => EmptyString
  | S n', String _ rest => slice n' rest
  end.

(** [s.startsWith(prefix)] *)
Definition startsWith (s prefix : string) : bool := String.prefix prefix s.

(** Every character of [s] satisfies [p]. *)
Fixpoint allChars (p : ascii -> bool) (s : string) : bool :=
  match s with
  | EmptyString => true
  | String c rest => p c && allChars p rest
  end.

Definition isAsciiChar (c : ascii) : bool := (nat_of_ascii c <? 128)%nat.

Definition isLowerLetter (c : ascii) : bool :=
  let n := nat_of_ascii c in (97 <=? n)%nat && (n <=? 122)%nat.
Definition isUpperLetter (c : ascii) : bool :=
  let n := nat_of_ascii c in (65 <=? n)%nat && (n <=? 90)%nat.
Definition isDigit (c : ascii) : bool :=
  let n := nat_of_ascii c in (48 <=? n)%nat && (n <=? 57)%nat.
Definition isHyphen (c : ascii) : bool := bool_decide (c = "-"%char).

(** No character of [s] is a space. *)
Definition hasNoSpace (s : string) : bool :=
  allChars (fun c => negb (bool_decide (c = " "%char))) s.

(* ===================================================================== *)
(** * Errors *)
(* ===================================================================== *)

(** Modelled from the spec: the [ErrorCode] enumeration of [core/errors]
    (the file is not part of the sources at hand), with the six kinds of the
    spec's error taxonomy. *)
Inductive ErrorCode : Type :=
| InvalidConfiguration
| InvalidParameter
| TokenExpiredError
| UiRequiredError
| InternalError
| ServiceError.

#[global] Instance ErrorCode_eq_dec : EqDecision ErrorCode.
Proof. solve_decision. Defined.

(** What a [throw] can carry: the SDK's typed [ErrorWithCode], a bare
    [Error], or the [TypeError] the runtime raises on a property access
    through [null]. *)
Inductive Exception : Type :=
| ErrorWithCode (message : string) (code : ErrorCode)
| Error (message : string)
| TypeError (message : string).

#[global] Instance Exception_eq_dec : EqDecision Exception.
Proof. solve_decision. Defined.

(** The stable code of a thrown value, if it has one. *)
Definition codeOf (e : Exception) : option ErrorCode :=
  match e with
  | ErrorWithCode _ c => Some c
  | _ => None
  end.

Definition messageOf (e : Exception) : string :=
  match e with
  | ErrorWithCode m _ | Error m | TypeError m => m
  end.

(** A computation that returns or throws. *)
Definition Result (A : Type) : Type := Exception + A.

(* ===================================================================== *)
(** * The SDK's On-Behalf-Of credential *)
(* ===================================================================== *)

Module Sdk.

(** The [AccessToken] of [@azure/identity]. *)
Record AccessToken : Type := mkAccessToken {
  token : string;
  expiresOnTimestamp : Z
}.

#[global] Instance AccessToken_eq_dec : EqDecision AccessToken.
Proof. solve_decision. Defined.

(** ** The process-wide configuration object *)

Record AuthenticationConfiguration : Type := mkAuthenticationConfiguration {
  clientId : option string;
  authorityHost : option string;
  clientSecret : option string;
  tenantId : option string;
  initiateLoginEndpoint : option string;
  simpleAuthEndpoint : option string
}.

Record Configuration : Type := mkConfiguration {
  authentication : option AuthenticationConfiguration
}.

(** [config?.authentication?.f] *)
Definition authProperty (config : option Configuration)
    (f : AuthenticationConfiguration -> option string) : option string :=
  match config with
  | Some c => match authentication c with
              | Some a => f a
              | None => None
              end
  | None => None
  end.

(** ** What the module imports *)

(** The claims [parseJwt] hands back, as far as the credential reads them. *)
Record SSOTokenInfoBase : Type := mkSSOTokenInfoBase {
  exp : Z
}.

(** [util/utils] and [core/errors] are imported by the credential but are not
    among the sources: their functions and message templates are parameters
    of the model. *)
Class Utils : Type := {
  parseJwt : string -> Result SSOTokenInfoBase;
  formatString : string -> list (option string) -> string;
  ErrorMessage_InvalidConfiguration : string;
  ErrorMessage_FailToAcquireTokenOnBehalfOfUser : string
}.

(** The argument of [getToken] at run time: a string, an array whose items
    are strings or [null], or a value of any other type. *)
Inductive Scopes : Type :=
| ScopesString (s : string)
| ScopesArray (items : list (option string))
| ScopesOther.

#[global] Instance Scopes_eq_dec : EqDecision Scopes.
Proof. solve_decision. Defined.

(** Modelled from the spec: [validateScopesType] of [util/utils] (not among
    the sources) rejects scopes that are neither a string nor an array with
    [InvalidParameter]; the wording of its message is not fixed by the
    spec. *)
Definition validateScopesType (scopes : Scopes) : Result unit :=
  match scopes with
  | ScopesOther =>
      inl (ErrorWithCode
             "The type of scopes is not valid, it must be string or string array"
             InvalidParameter)
  | _ => inr tt
  end.

(** ** The MSAL confidential client *)

Record MsalAuth : Type := mkMsalAuth {
  auth_clientId : string;
  auth_authority : string;
  auth_clientSecret : string
}.

Record OnBehalfOfRequest : Type := mkOnBehalfOfRequest {
  oboAssertion : string;
  scopes : list string
}.

#[global] Instance OnBehalfOfRequest_eq_dec : EqDecision OnBehalfOfRequest.
Proof. solve_decision. Defined.

Record AuthenticationResult : Type := mkAuthenticationResult {
  accessToken : string;
  expiresOn : option Date
}.

(** The value MSAL rejects with, as far as [generateAuthServerError] reads
    it. *)
Record AuthError : Type := mkAuthError {
  name : string;
  errorMessage : option string
}.

Inductive ProviderOutcome : Type :=
| Rejects (err : AuthError)
| Resolves (result : option AuthenticationResult).

(** The identity provider behind [acquireTokenOnBehalfOf]: its answer may
    depend on the client's settings, on every request it has served so far
    and on the request at hand. *)
Class IdentityProvider : Type := {
  acquireTokenOnBehalfOf :
    MsalAuth -> list OnBehalfOfRequest -> OnBehalfOfRequest -> ProviderOutcome
}.

(** ** The credential object and the program state *)

Record OnBehalfOfUserCredential : Type := mkOnBehalfOfUserCredential {
  msalClient : MsalAuth;
  ssoToken : AccessToken
}.

Record State : Type := mkState {
  this : OnBehalfOfUserCredential;
  config : option Configuration;   (* the module-level [config] *)
  now : Z;                         (* what [Date.now()] reads, in ms *)
  providerCalls : list OnBehalfOfRequest   (* requests sent to the provider *)
}.

(** The state after the provider has been sent [request]. *)
Definition recordCall (request : OnBehalfOfRequest) (s : State) : State :=
  {| this := this s; config := config s; now := now s;
     providerCalls := providerCalls s ++ [request] |}.

(** The state when the clock reads [t]. *)
Definition setNow (t : Z) (s : State) : State :=
  {| this := this s; config := config s; now := t;
     providerCalls := providerCalls s |}.

(** The state after [loadConfiguration] has replaced the global [config]. *)
Definition setConfig (c : option Configuration) (s : State) : State :=
  {| this := this s; config := c; now := now s;
     providerCalls := providerCalls s |}.

(** ** A state-and-exception monad for the methods *)

Definition M (A : Type) : Type := State -> Result A * State.

Definition ret {A} (a : A) : M A := fun s => (inr a, s).
Definition throw {A} (e : Exception) : M A := fun s => (inl e, s).
Definition bind {A B} (m : M A) (k : A -> M B) : M B :=
  fun s => match m s with
           | (inl e, s') => (inl e, s')
           | (inr a, s') => k a s'
           end.
Definition gets {A} (f : State -> A) : M A := fun s => (inr (f s), s).
Definition lift {A} (r : Result A) : M A := fun s => (r, s).

#[global] Instance M_ret : MRet M := @ret.
#[global] Instance M_bind : MBind M := fun A B k m => bind m k.

Section Methods.
Context `{Utils} `{IdentityProvider}.

(** ** [constructor(ssoToken)] *)

Definition push (l : list string) (x : string) : list string := l ++ [x].

Definition missingConfigurations (config : option Configuration) : list string :=
  let m := [] in
  let m := if falsy (authProperty config clientId) then push m "clientId" else m in
  let m := if falsy (authProperty config authorityHost) then push m "authorityHost" else m in
  let m := if falsy (authProperty config clientSecret) then push m "clientSecret" else m in
  let m := if falsy (authProperty config tenantId) then push m "tenantId" else m in
  m.

(** [a + "/" + b] on two possibly undefined strings. *)
Definition concatUndefined (v : option string) : string := default "undefined" v.

Definition constructor (ssoToken : string) (config : option Configuration)
    : Result OnBehalfOfUserCredential :=
  let missing := missingConfigurations config in
  if negb (bool_decide (length missing = 0%nat)) then
    let errorMsg :=
      formatString ErrorMessage_InvalidConfiguration [Some (join ", " missing); Some "undefined"] in
    inl (ErrorWithCode errorMsg InvalidConfiguration)
  else
    let authority :=
      concatUndefined (authProperty config authorityHost) +:+ "/" +:+
      concatUndefined (authProperty config tenantId) in
    let client :=
      {| auth_clientId := concatUndefined (authProperty config clientId);
         auth_authority := authority;
         auth_clientSecret := concatUndefined (authProperty config clientSecret) |} in
    match parseJwt ssoToken with
    | inl e => inl e
    | inr decodedSsoToken =>
        inr {| msalClient := client;
               ssoToken := {| token := ssoToken;
                              expiresOnTimestamp := exp decodedSsoToken |} |}
    end.

(** ** [generateAuthServerError(err)] *)

Definition generateAuthServerError (err : AuthError) : Exception :=
  let errorMessage := errorMessage err in
  if bool_decide (name err = "InteractionRequiredAuthError") then
    ErrorWithCode
      ("Failed to get access token from AAD server, interaction required: "
         +:+ concatUndefined errorMessage)
      UiRequiredError
  else if negb (falsy errorMessage)
          && bool_decide (0 <= indexOf (concatUndefined errorMessage) "AADSTS500133") then
    ErrorWithCode
      ("Failed to get access token from AAD server, sso token expired: "
         +:+ concatUndefined errorMessage)
      TokenExpiredError
  else
    ErrorWithCode
      (formatString ErrorMessage_FailToAcquireTokenOnBehalfOfUser
         [errorMessage])
      ServiceError.

(** ** [getToken(scopes)] *)

(** [this.msalClient.acquireTokenOnBehalfOf(request)]: one call to the
    provider, recorded in the state. *)
Definition callProvider (request : OnBehalfOfRequest) : M ProviderOutcome :=
  fun s =>
    (inr (acquireTokenOnBehalfOf (msalClient (this s)) (providerCalls s) request),
     recordCall request s).

(** The filter [(x) => x !== null && x !== ""]. *)
Definition keepScope (x : option string) : option string :=
  match x with
  | Some s => if bool_decide (s = "") then None else Some s
  | None => None
  end.

Definition scopesArrayOf (scopes : Scopes) : list string :=
  let scopesArray : list (option string) :=
    match scopes with
    | ScopesString s => Some <$> split " "%char s
    | ScopesArray items => items
    | ScopesOther => []
    end in
  omap keepScope scopesArray.

Definition getToken (scopes : Scopes) : M AccessToken :=
  lift (validateScopesType scopes) ;;
  let scopesArray := scopesArrayOf scopes in
  if bool_decide (length scopesArray = 0%nat) then
    t ← gets now;
    sso ← gets (fun s => ssoToken (this s));
    if bool_decide (floorSeconds t > expiresOnTimestamp sso) then
      throw (ErrorWithCode "Sso token has already expired." TokenExpiredError)
    else ret sso
  else
    sso ← gets (fun s => ssoToken (this s));
    outcome ← callProvider {| oboAssertion := token sso; scopes := scopesArray |};
    match outcome with
    | Rejects error => throw (generateAuthServerError error)
    | Resolves None =>
        throw (ErrorWithCode
                 (formatString ErrorMessage_FailToAcquireTokenOnBehalfOfUser
                    [Some "Access token is null"])
                 InternalError)
    | Resolves (Some authenticationResult) =>
        match expiresOn authenticationResult with
        | None => throw (TypeError "Cannot read properties of null (reading 'getTime')")
        | Some d =>
            ret {| token := accessToken authenticationResult;
                   expiresOnTimestamp := getTime d |}
        end
    end.

End Methods.

End Sdk.

(* ===================================================================== *)
(** * The SQL plugin's token parser *)
(* ===================================================================== *)

Module SqlPlugin.

Inductive UserType : Type :=
| User
| ServicePrincipal.

#[global] Instance UserType_eq_dec : EqDecision UserType.
Proof. solve_decision. Defined.

(** The fields are typed [string] in the source but are filled from claims
    of type [any]. *)
Record TokenInfo : Type := mkTokenInfo {
  name : JsValue;
  objectId : JsValue;
  userType : UserType
}.

(** The [jwt-decode] package: the claims of the token's payload, or a
    throw. *)
Class JwtDecode : Type := {
  jwtDecode : string -> Result (gmap string JsValue)
}.

Section ParseToken.
Context `{JwtDecode}.

Definition parseToken (accessToken : string) : Result TokenInfo :=
  match jwtDecode accessToken with
  | inl e => inl e
  | inr jwt =>
      let authType : Result JsValue :=
        if strictEqString (getProperty jwt "ver") "1.0" then
          inr (getProperty jwt "appidacr")
        else if strictEqString (getProperty jwt "ver") "2.0" then
          inr (getProperty jwt "azpacr")
        else
          inl (Error "invalide token") in
      match authType with
      | inl e => inl e
      | inr authType =>
          if strictEqString authType "0" then
            inr (mkTokenInfo (getProperty jwt "name") (getProperty jwt "oid") User)
          else
            inr (mkTokenInfo (getProperty jwt "appid") (getProperty jwt "oid")
                   ServicePrincipal)
      end
  end.

End ParseToken.

(** The class of [/[^a-z0-9-]/gi] before negation; the [i] flag lets the
    upper-case letters in as well. *)
Definition endpointClass (c : ascii) : bool :=
  isLowerLetter c || isUpperLetter c || isDigit c || isHyphen c.

Definition formatEndpoint (endpoint : string) : string :=
  let endpoint := toLowerCase endpoint in
  let endpoint := removeOutside endpointClass endpoint in
  if bool_decide (charAt0 endpoint = Some "-"%char) then slice 1 endpoint
  else endpoint.

(** The alphabet of a formatted endpoint: lower-case letters, digits and the
    hyphen. *)
Definition isEndpointChar (c : ascii) : bool :=
  isLowerLetter c || isDigit c || isHyphen c.

End SqlPlugin.

(* ===================================================================== *)
(** * What the spec says, where it is compared with the code *)
(* ===================================================================== *)

Module Spec.

(** The characters the spec's "whitespace" covers: space, tab, line feed,
    vertical tab, form feed and carriage return. *)
Definition isWhitespace (c : ascii) : bool :=
  let n := nat_of_ascii c in
  (n =? 32)%nat || ((9 <=? n)%nat && (n <=? 13)%nat).

(** Splitting on whitespace and discarding empty entries, as the spec words
    the normalisation of a scope string. *)
Fixpoint splitWhitespace (word : string) (s : string) : list string :=
  let flush (rest : list string) :=
    match word with
    | EmptyString => rest
    | _ => word :: rest
    end in
  match s with
  | EmptyString => flush []
  | String c s' =>
      if isWhitespace c then flush (splitWhitespace EmptyString s')
      else splitWhitespace (word +:+ String c EmptyString) s'
  end.

Definition normalizeScopes (scopes : Sdk.Scopes) : list string :=
  match scopes with
  | Sdk.ScopesString s => splitWhitespace EmptyString s
  | Sdk.ScopesArray items => omap Sdk.keepScope items
  | Sdk.ScopesOther => []
  end.

(** The four configuration values the spec requires, by name. *)
Definition requiredFields
    : list (string * (Sdk.AuthenticationConfiguration -> option string)) :=
  [("clientId", Sdk.clientId); ("authorityHost", Sdk.authorityHost);
   ("clientSecret", Sdk.clientSecret); ("tenantId", Sdk.tenantId)].

(** A configuration value is absent when reading it yields nothing the
    credential can use: the object or the property is missing, or the value
    is the empty string. *)
Definition absent (config : option Sdk.Configuration)
    (f : Sdk.AuthenticationConfiguration -> option string) : bool :=
  falsy (Sdk.authProperty config f).

Definition absentFields (config : option Sdk.Configuration) : list string :=
  fst <$> List.filter (fun nf => absent config (snd nf)) requiredFields.

(** The delegated request of the ExchangeScoped path: the held SSO token is
    the assertion, the requested scopes go along. *)
Definition delegatedRequest (credential : Sdk.OnBehalfOfUserCredential)
    (scopes : list string) : Sdk.OnBehalfOfRequest :=
  {| Sdk.oboAssertion := Sdk.token (Sdk.ssoToken credential);
     Sdk.scopes := scopes |}.

(** The SSO token has expired when the clock reads [nowMs]: the current time,
    in whole epoch seconds, is past [expiresOnTimestamp]. *)
Definition ssoExpired (credential : Sdk.OnBehalfOfUserCredential) (nowMs : Z) : Prop :=
  Sdk.expiresOnTimestamp (Sdk.ssoToken credential) < nowMs / 1000.

(** The argument has the type [getToken] declares for it: a string, or an
    array whose items are all strings. *)
Definition stringOrStringArray (scopes : Sdk.Scopes) : Prop :=
  match scopes with
  | Sdk.ScopesString _ => True
  | Sdk.ScopesArray items => Forall (fun item => item <> None) items
  | Sdk.ScopesOther => False
  end.

(** [sub] occurs in [s]. *)
Definition contains (s sub : string) : Prop :=
  exists before after, s = before +:+ sub +:+ after.

(** The provider's error asks for interaction (consent, sign-in). *)
Definition interactionRequired (err : Sdk.AuthError) : Prop :=
  Sdk.name err = "InteractionRequiredAuthError".

(** The provider's message carries the "assertion expired" signature. *)
Definition assertionExpired (err : Sdk.AuthError) : Prop :=
  exists m, Sdk.errorMessage err = Some m /\ contains m "AADSTS500133".

(** Every character of [s] is a space. *)
Fixpoint onlySpaces (s : string) : Prop :=
  match s with
  | EmptyString => True
  | String c rest => c = " "%char /\ onlySpaces rest
  end.

End Spec.

(* ===================================================================== *)
(** * Test doubles *)
(* ===================================================================== *)

Module Stub.
Import Sdk.

(** Replaces [{0}] ... [{9}] by the replacement of that index, and leaves
    the placeholder where the replacement is undefined. *)
Fixpoint format (replacements : list (option string)) (s : string) : string :=
  match s with
  | String "{" (String d (String "}" rest as tail) as inner) =>
      let n := nat_of_ascii d in
      if ((48 <=? n)%nat && (n <=? 57)%nat)%bool then
        match replacements !! (n - 48)%nat with
        | Some (Some r) => r +:+ format replacements rest
        | _ => String "{" (format replacements inner)
        end
      else String "{" (format replacements inner)
  | String c rest => String c (format replacements rest)
  | EmptyString => EmptyString
  end.

(** A decoder that knows two tokens. *)
Definition decode (ssoToken : string) : Result SSOTokenInfoBase :=
  if bool_decide (ssoToken = "sso-token-exp-1700000000") then
    inr {| exp := 1700000000 |}
  else if bool_decide (ssoToken = "sso-token-exp-1600000000") then
    inr {| exp := 1600000000 |}
  else
    inl (ErrorWithCode "Parse jwt token failed in node env with error: Invalid token specified"
           InternalError).

Definition utils : Utils :=
  {| parseJwt := decode;
     formatString := fun template replacements => format replacements template;
     ErrorMessage_InvalidConfiguration := "{0} in configuration is invalid: {1}.";
     ErrorMessage_FailToAcquireTokenOnBehalfOfUser :=
       "Failed to acquire access token on behalf of user: {0}" |}.

(** A provider that answers its n-th request with the n-th entry of a
    script, and with [null] after the script has run out. *)
Definition scripted (script : list ProviderOutcome) : IdentityProvider :=
  {| acquireTokenOnBehalfOf := fun _ served _ =>
       default (Resolves None) (script !! length served) |}.

Definition grant (accessToken : string) (expiresOnMs : Z) : ProviderOutcome :=
  Resolves (Some {| accessToken := accessToken;
                    expiresOn := Some (mkDate expiresOnMs) |}).

Definition fullConfig : option Configuration :=
  Some {| authentication := Some
    {| clientId := Some "fake_client_id";
       authorityHost := Some "https://login.microsoftonline.com";
       clientSecret := Some "fake_client_secret";
       tenantId := Some "fake_tenant_id";
       initiateLoginEndpoint := None;
       simpleAuthEndpoint := None |} |}.

Definition loginOnlyConfig : option Configuration :=
  Some {| authentication := Some
    {| clientId := None; authorityHost := None; clientSecret := None;
       tenantId := None;
       initiateLoginEndpoint := Some "fake_login_url";
       simpleAuthEndpoint := None |} |}.

Definition credential : OnBehalfOfUserCredential :=
  {| msalClient :=
       {| auth_clientId := "fake_client_id";
          auth_authority := "https://login.microsoftonline.com/fake_tenant_id";
          auth_clientSecret := "fake_client_secret" |};
     ssoToken := {| token := "sso-token-exp-1700000000";
                    expiresOnTimestamp := 1700000000 |} |}.

Definition stateAt (nowMs : Z) : State :=
  {| this := credential; config := fullConfig; now := nowMs; providerCalls := [] |}.

(** One second before the SSO token of [credential] expires, and long
    after. *)
Definition freshState : State := stateAt 1699999999000.
Definition expiredState : State := stateAt 1800000000000.

Definition userRead : Scopes := ScopesArray [Some "User.Read"].
Definition tab : string := String "009" EmptyString.

Definition grantsA1 : IdentityProvider := scripted [grant "A1" 1700003600000].
Definition grantsA1A2 : IdentityProvider :=
  scripted [grant "A1" 1700003600000; grant "A2" 1700003600000].
Definition reportsExpiredAssertion : IdentityProvider :=
  scripted [Rejects {| name := "ServerError";
                       errorMessage := Some "AADSTS500133: Assertion is not within its valid time range." |}].

(** A [jwt-decode] that knows three payloads. *)
Definition jwtDecoder : SqlPlugin.JwtDecode :=
  {| SqlPlugin.jwtDecode := fun t =>
       if bool_decide (t = "user-v1") then
         inr (list_to_map [("ver", JString "1.0"); ("appidacr", JString "0");
                           ("name", JString "fake-name"); ("oid", JString "fake-oid")])
       else if bool_decide (t = "app-v2") then
         inr (list_to_map [("ver", JString "2.0"); ("azpacr", JString "1");
                           ("appid", JString "fake-appid"); ("oid", JString "fake-oid")])
       else if bool_decide (t = "v3") then
         inr (list_to_map [("ver", JString "3.0"); ("azpacr", JString "0")])
       else inl (Error "Invalid token specified") |}.

End Stub.

(* ===================================================================== *)
(** * The extension's debug helpers ([debug/commonUtils.ts]) *)
(* ===================================================================== *)

Module Debug.

(** ** [debug/constants.ts] *)

Definition frontendFolderName : string := "tabs".
Definition backendFolderName : string := "api".
Definition botFolderName : string := "bot".
Definition localEnvFileName : string := "local.env".
Definition frontendLocalEnvPrefix : string := "FRONTEND_".
Definition backendLocalEnvPrefix : string := "BACKEND_".
Definition authLocalEnvPrefix : string := "AUTH_".
Definition authServicePathEnvKey : string := "AUTH_SERVICE_PATH".
Definition botLocalEnvPrefix : string := "BOT_".

(** What the module imports from packages: the folder name constant of
    [fx-api], [path.join] and [dotenv.parse]. *)
Class Packages : Type := {
  ConfigFolderName : string;
  pathJoin : list string -> string;
  dotenvParse : string -> gmap string string
}.

(** What the functions read from their surroundings: the [fsPath] of each
    workspace folder ([undefined] when no folder is open) and the file
    system. *)
Record Surroundings : Type := mkSurroundings {
  workspaceFolders : option (list string);
  pathExists : string -> bool;
  readFile : string -> Result string
}.

(** A value as [getLocalEnv] keeps it: there, and not the empty string. *)
Definition kept (value : option string) : option string :=
  match value with
  | Some v => if falsy (Some v) then None else Some v
  | None => None
  end.

Section Functions.
Context `{Packages}.

Definition getProjectRoot (w : Surroundings) (folderPath folderName : string)
    : option string :=
  let projectRoot := pathJoin [folderPath; folderName] in
  let projectExists := pathExists w projectRoot in
  if projectExists then Some projectRoot else None.

(** [result[name] = value] on an object created as [{}], for a string
    [value].  The name [__proto__] is the accessor of [Object.prototype]: its
    setter ignores a value that is neither an object nor [null], so that
    assignment stores nothing.  Any other name becomes an own property. *)
Definition assign (name value : string) (result : gmap string string)
    : gmap string string :=
  if bool_decide (name = "__proto__") then result else <[name := value]> result.

(** The loop of [getLocalEnv]: the entries whose key starts with [prefix]
    and whose value is not empty, stored under the key without the prefix. *)
Definition selectByPrefix (prefix : string) (env : gmap string string)
    : gmap string string :=
  map_fold
    (fun key value result =>
       if startsWith key prefix && negb (falsy (Some value)) then
         assign (slice (String.length prefix) key) value result
       else result)
    ∅ env.

Definition getLocalEnv (w : Surroundings) (prefix : string)
    : Result (option (gmap string string)) :=
  match workspaceFolders w with
  | None => inr None
  | Some [] => inl (TypeError "Cannot read properties of undefined (reading 'uri')")
  | Some (workspacePath :: _) =>
      let localEnvFilePath :=
        pathJoin [workspacePath; "." +:+ ConfigFolderName; localEnvFileName] in
      if negb (pathExists w localEnvFilePath) then inr None
      else
        match readFile w localEnvFilePath with
        | inl e => inl e
        | inr contents =>
            let env := dotenvParse contents in
            let result := selectByPrefix prefix env in
            inr (if bool_decide (0 < size result)%nat then Some result else None)
        end
  end.

Definition getFrontendLocalEnv (w : Surroundings) := getLocalEnv w frontendLocalEnvPrefix.
Definition getBackendLocalEnv (w : Surroundings) := getLocalEnv w backendLocalEnvPrefix.
Definition getAuthLocalEnv (w : Surroundings) := getLocalEnv w authLocalEnvPrefix.
Definition getBotLocalEnv (w : Surroundings) := getLocalEnv w botLocalEnvPrefix.

Definition getAuthServicePath (w : Surroundings) : Result (option string) :=
  match getLocalEnv w "" with
  | inl e => inl e
  | inr result =>
      inr (match result with
           | Some r => r !! authServicePathEnvKey
           | None => None
           end)
  end.

Definition isFxProject (w : Surroundings) (folderPath : string) : bool :=
  pathExists w (pathJoin [folderPath; "." +:+ ConfigFolderName]).

Definition hasTeamsfxBackend (w : Surroundings) : Result bool :=
  match workspaceFolders w with
  | None => inr false
  | Some [] => inl (TypeError "Cannot read properties of undefined (reading 'uri')")
  | Some (workspacePath :: _) =>
      if negb (isFxProject w workspacePath) then inr false
      else
        let backendRoot := getProjectRoot w workspacePath backendFolderName in
        inr (bool_decide (backendRoot <> None))
  end.

End Functions.

End Debug.

(* ===================================================================== *)
(** * The function plugin's errors ([function/resources/errors.ts]) *)
(* ===================================================================== *)

Module FunctionPlugin.

Inductive ErrorType : Type :=
| User
| System.

Definition tips_checkLog : string := "Read log for more information.".

Record FunctionPluginError : Type := mkFunctionPluginError {
  code : string;
  message : string;
  suggestions : list string;
  errorType : ErrorType
}.

(** [new FunctionPluginError(errorType, code, message, suggestions)] *)
Definition newFunctionPluginError (errorType : ErrorType) (code message : string)
    (suggestions : list string) : FunctionPluginError :=
  {| code := code;
     message := message;
     suggestions := [tips_checkLog] ++ suggestions;
     errorType := errorType |}.

Definition getMessage (e : FunctionPluginError) : string :=
  message e +:+ " Suggestions: " +:+ join (String "010" EmptyString) (suggestions e).

(** What a callback can throw: the [UserError] and [SystemError] of [fx-api],
    an error of the plugin, any other object, or [undefined] or [null] (as a
    promise rejected without a reason does). *)
Inductive Thrown : Type :=
| UserError (name message source : string)
| SystemError (name message source : string)
| PluginError (e : FunctionPluginError)
| OtherError (description : string)
| Nullish.

(** The [TypeError] of a method call on [undefined] or [null]. *)
Definition toStringOfNullish : Thrown :=
  OtherError "TypeError: Cannot read properties of undefined (reading 'toString')".

(** [e instanceof UserError || e instanceof SystemError] *)
Definition isUserOrSystemError (e : Thrown) : bool :=
  match e with
  | UserError _ _ _ | SystemError _ _ _ => true
  | _ => false
  end.

(** [e.toString()] on a thrown object is the object's own business: it
    returns a string, or it throws (an object made by [Object.create(null)]
    has no [toString] to call, and a [toString] may itself throw). *)
Class Runtime : Type := {
  toString : Thrown -> Thrown + string
}.

(** An asynchronous computation: it settles with a value or a thrown value,
    and may write lines to the [Logger] on the way. *)
Definition Async (T : Type) : Type := list string -> (Thrown + T) * list string.

Section Run.
Context `{Runtime}.

(** [e.toString()] for whatever was thrown: on [undefined] and [null] the
    call is a [TypeError]. *)
Definition callToString (e : Thrown) : Thrown + string :=
  match e with
  | Nullish => inl toStringOfNullish
  | _ => toString e
  end.

Definition runWithErrorCatchAndThrow {T : Type} (error : FunctionPluginError)
    (fn : Async T) : Async T :=
  fun log =>
    match fn log with
    | (inr res, log) => (inr res, log)
    | (inl e, log) =>
        if isUserOrSystemError e then (inl e, log)
        else
          match callToString e with
          | inl raised => (inl raised, log)
          | inr line => (inl (PluginError error), log ++ [line])
          end
    end.

End Run.

End FunctionPlugin.

(* ===================================================================== *)
(** * The bot plugin's site envelope ([languageStrategy.ts]) *)
(* ===================================================================== *)

Module BotPlugin.

Inductive ProgrammingLanguage : Type :=
| TypeScript
| JavaScript.

Record NameValuePair : Type := mkNameValuePair {
  name : string;
  value : string
}.

(** Arrays are objects: a variable holds a reference, the heap holds the
    elements. *)
Definition Ref : Type := positive.

Record SiteConfig : Type := mkSiteConfig {
  appSettings : Ref
}.

Record Site : Type := mkSite {
  location : string;
  serverFarmId : string;
  siteConfig : SiteConfig
}.

(** A new array. *)
Definition alloc (elements : list NameValuePair) (heap : gmap Ref (list NameValuePair))
    : Ref * gmap Ref (list NameValuePair) :=
  let r := fresh (dom heap) in (r, <[r := elements]> heap).

(** [array.push(p)] *)
Definition push (array : Ref) (p : NameValuePair) (heap : gmap Ref (list NameValuePair))
    : gmap Ref (list NameValuePair) :=
  alter (fun elements => elements ++ [p]) array heap.

Definition elementsOf (array : Ref) (heap : gmap Ref (list NameValuePair))
    : list NameValuePair :=
  default [] (heap !! array).

Definition getSiteEnvelope (language : ProgrammingLanguage)
    (appServicePlanName location : string) (appSettings : option Ref)
    (heap : gmap Ref (list NameValuePair)) : Site * gmap Ref (list NameValuePair) :=
  let '(siteSettings, heap) := alloc [] heap in
  let siteEnvelope :=
    {| location := location;
       serverFarmId := appServicePlanName;
       siteConfig := {| appSettings := siteSettings |} |} in
  let '(appSettings, heap) :=
    match appSettings with
    | Some array => (array, heap)
    | None => alloc [] heap
    end in
  let heap := push appSettings
                {| name := "SCM_DO_BUILD_DURING_DEPLOYMENT"; value := "true" |} heap in
  let heap := push appSettings
                {| name := "WEBSITE_NODE_DEFAULT_VERSION"; value := "12.13.0" |} heap in
  let heap := foldl (fun heap p => push siteSettings p heap) heap
                (elementsOf appSettings heap) in
  (siteEnvelope, heap).

(** ** [appStudio/appStudio.ts]: the module-level HTTP client *)

(** The client [axios.create] returns, as far as the module configures it:
    the [Authorization] header of its POST requests. *)
Record AxiosInstance : Type := mkAxiosInstance {
  postAuthorization : string
}.

(** [init(accessToken)] on the module variable [axiosInstance]. *)
Definition init (accessToken : string) (axiosInstance : option AxiosInstance)
    : bool * option AxiosInstance :=
  match axiosInstance with
  | Some _ => (true, axiosInstance)
  | None =>
      if negb (falsy (Some accessToken)) then
        (true, Some {| postAuthorization := "Bearer " +:+ accessToken |})
      else (false, axiosInstance)
  end.

(** [init] called with each token in turn. *)
Definition initEach (accessTokens : list string) (axiosInstance : option AxiosInstance)
    : option AxiosInstance :=
  foldl (fun instance accessToken => snd (init accessToken instance))
    axiosInstance accessTokens.

(** The two settings every envelope gets. *)
Definition defaultSettings : list NameValuePair :=
  [ {| name := "SCM_DO_BUILD_DURING_DEPLOYMENT"; value := "true" |};
    {| name := "WEBSITE_NODE_DEFAULT_VERSION"; value := "12.13.0" |} ].

End BotPlugin.

(* ===================================================================== *)
(** * The local debug plugin's environment ([localdebug/localEnv.ts]) *)
(* ===================================================================== *)

Module LocalDebug.

(** [./constants] is not among the sources.  Of each of its four enumerations
    the model takes the list of values, and the members the code names; a
    named member is one of the values of its enumeration. *)
Class Constants : Type := {
  LocalEnvAuthKeys : list string;
  LocalEnvFrontendKeys : list string;
  LocalEnvBackendKeys : list string;
  LocalEnvBotKeys : list string;
  LocalEnvAuthKeys_Urls : string;
  LocalEnvFrontendKeys_Browser : string;
  LocalEnvFrontendKeys_Https : string;
  LocalEnvBackendKeys_FuncWorkerRuntime : string;
  Urls_member : LocalEnvAuthKeys_Urls ∈ LocalEnvAuthKeys;
  Browser_member : LocalEnvFrontendKeys_Browser ∈ LocalEnvFrontendKeys;
  Https_member : LocalEnvFrontendKeys_Https ∈ LocalEnvFrontendKeys;
  FuncWorkerRuntime_member :
    LocalEnvBackendKeys_FuncWorkerRuntime ∈ LocalEnvBackendKeys
}.

Section InitialLocalEnvs.
Context `{Constants}.

(** [for (const key of keys) { localEnvs[key] = ""; }] *)
Definition initialise (keys : list string) (localEnvs : gmap string string)
    : gmap string string :=
  foldl (fun localEnvs key => <[key := ""]> localEnvs) localEnvs keys.

Definition initialLocalEnvs (includeFrontend includeBackend includeBot : bool)
    : gmap string string :=
  let localEnvs : gmap string string := ∅ in
  let localEnvs := initialise LocalEnvAuthKeys localEnvs in
  let localEnvs := <[LocalEnvAuthKeys_Urls := "http://localhost:5000"]> localEnvs in
  let localEnvs :=
    if includeFrontend then
      let localEnvs := initialise LocalEnvFrontendKeys localEnvs in
      let localEnvs := <[LocalEnvFrontendKeys_Browser := "none"]> localEnvs in
      let localEnvs := <[LocalEnvFrontendKeys_Https := "true"]> localEnvs in
      if includeBackend then
        let localEnvs := initialise LocalEnvBackendKeys localEnvs in
        <[LocalEnvBackendKeys_FuncWorkerRuntime := "node"]> localEnvs
      else localEnvs
    else localEnvs in
  if includeBot then initialise LocalEnvBotKeys localEnvs else localEnvs.

End InitialLocalEnvs.

End LocalDebug.

(* ===================================================================== *)
(** * More test doubles *)
(* ===================================================================== *)

Module StubMore.

Definition userV1Claims : gmap string JsValue :=
  list_to_map [("ver", JString "1.0"); ("appidacr", JString "0");
               ("name", JString "fake-name"); ("oid", JString "fake-oid")].

(** A [jwt-decode] for two tokens that differ in the [azpacr] claim only. *)
Definition jwtDecoder : SqlPlugin.JwtDecode :=
  {| SqlPlugin.jwtDecode := fun t =>
       if bool_decide (t = "user-v1") then inr userV1Claims
       else if bool_decide (t = "user-v1-azpacr") then
         inr (<["azpacr" := JString "1"]> userV1Claims)
       else inl (Error "Invalid token specified") |}.

Definition resolvesNull : Sdk.IdentityProvider := Stub.scripted [Sdk.Resolves None].

Definition grantsWithoutExpiry : Sdk.IdentityProvider :=
  Stub.scripted [Sdk.Resolves (Some {| Sdk.accessToken := "A1";
                                       Sdk.expiresOn := None |})].

(** [path.join] on segments that need no normalising, a [dotenv.parse] that
    knows one file, and a workspace whose [local.env] is that file. *)
Definition packages : Debug.Packages :=
  {| Debug.ConfigFolderName := "fx";
     Debug.pathJoin := fun segments => join "/" segments;
     Debug.dotenvParse := fun contents =>
       if bool_decide (contents = "local-env-contents") then
         list_to_map [("AUTH_SERVICE_PATH", "/home/user/.fx/bin/simpleauth");
                      ("AUTH_CLIENT_ID", "fake_client_id");
                      ("AUTH_CLIENT_SECRET", "");
                      ("FRONTEND_BROWSER", "none")]
       else ∅ |}.

Definition workspace : Debug.Surroundings :=
  {| Debug.workspaceFolders := Some ["/work/app"];
     Debug.pathExists := fun p =>
       bool_decide (p = "/work/app/.fx/local.env") || bool_decide (p = "/work/app/.fx");
     Debug.readFile := fun p =>
       if bool_decide (p = "/work/app/.fx/local.env") then inr "local-env-contents"
       else inl (Error "ENOENT: no such file or directory") |}.

(** A runtime where every object has a working [toString], but for the one
    described as "no toString": calling it is a [TypeError]. *)
Definition runtime : FunctionPlugin.Runtime :=
  {| FunctionPlugin.toString := fun e =>
       match e with
       | FunctionPlugin.UserError n m _ | FunctionPlugin.SystemError n m _ =>
           inr (n +:+ ": " +:+ m)
       | FunctionPlugin.PluginError e => inr ("Error: " +:+ FunctionPlugin.message e)
       | FunctionPlugin.OtherError d =>
           if bool_decide (d = "no toString") then
             inl (FunctionPlugin.OtherError "TypeError: e.toString is not a function")
           else inr d
       | FunctionPlugin.Nullish => inl FunctionPlugin.toStringOfNullish
       end |}.

Definition errorNew : FunctionPlugin.FunctionPluginError :=
  FunctionPlugin.newFunctionPluginError FunctionPlugin.System "ut-code" "ut-msg" [].

(** A callback that rejects with [e]. *)
Definition rejects (e : FunctionPlugin.Thrown) : FunctionPlugin.Async unit :=
  fun log => (inl e, log).

Definition callerSettings : list BotPlugin.NameValuePair :=
  [ {| BotPlugin.name := "BOT_ID"; BotPlugin.value := "fake-bot-id" |} ].

(** A heap with the caller's array at reference 1. *)
Definition heap : gmap BotPlugin.Ref (list BotPlugin.NameValuePair) :=
  {[ 1%positive := callerSettings ]}.

(** A small set of local debug constants. *)
Definition constants : LocalDebug.Constants :=
  {| LocalDebug.LocalEnvAuthKeys := ["AUTH_CLIENT_ID"; "AUTH_urls"];
     LocalDebug.LocalEnvFrontendKeys := ["FRONTEND_BROWSER"; "FRONTEND_HTTPS"];
     LocalDebug.LocalEnvBackendKeys := ["BACKEND_FUNCTIONS_WORKER_RUNTIME"];
     LocalDebug.LocalEnvBotKeys := ["BOT_ID"];
     LocalDebug.LocalEnvAuthKeys_Urls := "AUTH_urls";
     LocalDebug.LocalEnvFrontendKeys_Browser := "FRONTEND_BROWSER";
     LocalDebug.LocalEnvFrontendKeys_Https := "FRONTEND_HTTPS";
     LocalDebug.LocalEnvBackendKeys_FuncWorkerRuntime :=
       "BACKEND_FUNCTIONS_WORKER_RUNTIME";
     LocalDebug.Urls_member := ltac:(repeat constructor);
     LocalDebug.Browser_member := ltac:(repeat constructor);
     LocalDebug.Https_member := ltac:(repeat constructor);
     LocalDebug.FuncWorkerRuntime_member := ltac:(repeat constructor) |}.

End StubMore.

(* ===================================================================== *)
(** * Facts about the JavaScript string operations *)
(* ===================================================================== *)

Section StringFacts.

Lemma prefix_empty (s : string) : String.prefix EmptyString s = true.
Proof. destruct s; reflexivity. Qed.

Lemma prefix_append (sub after : string) : String.prefix sub (sub +:+ after) = true.
Proof.
  induction sub as [|c sub IH]; simpl; [apply prefix_empty|].
  destruct (ascii_dec c c); [exact IH | congruence].
Qed.

Lemma prefix_split (sub s : string) :
  String.prefix sub s = true -> exists after, s = sub +:+ after.
Proof.
  revert s. induction sub as [|c sub IH]; intros s Hp.
  - exists s. reflexivity.
  - destruct s as [|d s]; simpl in Hp; [discriminate|].
    destruct (ascii_dec c d) as [->|]; [|discriminate].
    destruct (IH _ Hp) as [after ->]. exists after. reflexivity.
Qed.

Lemma index_step (sub : string) (c : ascii) (s : string) :
  String.index 0 sub (String c s) =
  if String.prefix sub (String c s) then Some 0%nat
  else S <$> String.index 0 sub s.
Proof. simpl. destruct (String.index 0 sub s); reflexivity. Qed.

Lemma index_found (sub s : string) (n : nat) :
  String.index 0 sub s = Some n -> Spec.contains s sub.
Proof.
  revert n. induction s as [|c s IH]; intros n.
  - simpl. destruct sub; [|discriminate].
    exists EmptyString, EmptyString. reflexivity.
  - rewrite index_step. destruct (String.prefix sub (String c s)) eqn:Hp.
    + destruct (prefix_split _ _ Hp) as [after ->].
      exists EmptyString, after. reflexivity.
    + destruct (String.index 0 sub s) as [k|] eqn:Hk; [|discriminate].
      destruct (IH k eq_refl) as (before & after & ->).
      exists (String c before), after. reflexivity.
Qed.

Lemma index_complete (sub before after : string) :
  is_Some (String.index 0 sub (before +:+ sub +:+ after)).
Proof.
  induction before as [|c before IH].
  - change (EmptyString +:+ sub +:+ after) with (sub +:+ after).
    destruct (sub +:+ after) as [|d rest] eqn:E.
    + destruct sub; [simpl; eauto | discriminate].
    + rewrite index_step, <- E, prefix_append. eauto.
  - change (String c before +:+ sub +:+ after)
      with (String c (before +:+ sub +:+ after)).
    rewrite index_step.
    destruct (String.prefix sub (String c (before +:+ sub +:+ after))); [eauto|].
    destruct IH as [k ->]. simpl. eauto.
Qed.

(** [s.indexOf(sub) >= 0] says that [sub] occurs in [s]. *)
Lemma indexOf_contains (s sub : string) :
  0 <= indexOf s sub <-> Spec.contains s sub.
Proof.
  unfold indexOf. split.
  - destruct (String.index 0 sub s) as [n|] eqn:E; [|lia].
    intros _. eapply index_found, E.
  - intros (before & after & ->).
    destruct (index_complete sub before after) as [k ->]. lia.
Qed.

End StringFacts.

(* ===================================================================== *)
(** * How [getToken] runs *)
(* ===================================================================== *)

Import Sdk.

Section GetTokenRuns.
Context `{Utils} `{IdentityProvider}.

Ltac run_getToken :=
  unfold getToken, mbind, M_bind, bind, lift, gets, throw, ret, callProvider;
  simpl.

Lemma missingConfigurations_absentFields (config : option Configuration) :
  missingConfigurations config = Spec.absentFields config.
Proof.
  unfold missingConfigurations, Spec.absentFields, Spec.requiredFields,
    Spec.absent, push. simpl.
  destruct (falsy (authProperty config clientId)),
    (falsy (authProperty config authorityHost)),
    (falsy (authProperty config clientSecret)),
    (falsy (authProperty config tenantId)); reflexivity.
Qed.

Lemma scopesArrayOf_other_empty : scopesArrayOf ScopesOther = [].
Proof. reflexivity. Qed.

(** A value that is neither a string nor an array is rejected before
    anything else happens. *)
Lemma getToken_other (s : State) :
  exists msg, getToken ScopesOther s = (inl (ErrorWithCode msg InvalidParameter), s).
Proof. eexists. reflexivity. Qed.

(** The ReturnSSOToken path. *)
Lemma getToken_sso_path (scopes : Scopes) (s : State) :
  scopes <> ScopesOther ->
  scopesArrayOf scopes = [] ->
  getToken scopes s =
  (if bool_decide (floorSeconds (now s) > expiresOnTimestamp (ssoToken (this s)))
   then inl (ErrorWithCode "Sso token has already expired." TokenExpiredError)
   else inr (ssoToken (this s)), s).
Proof.
  intros Hty Hempty. run_getToken. rewrite Hempty.
  destruct scopes; [| |congruence]; simpl; case_bool_decide; reflexivity.
Qed.

(** The ExchangeScoped path: one request goes to the provider, and its
    outcome decides the result. *)
Lemma getToken_exchange_path (scopes : Scopes) (s : State) :
  scopesArrayOf scopes <> [] ->
  let request := Spec.delegatedRequest (this s) (scopesArrayOf scopes) in
  getToken scopes s =
  (match acquireTokenOnBehalfOf (msalClient (this s)) (providerCalls s) request with
   | Rejects error => inl (generateAuthServerError error)
   | Resolves None =>
       inl (ErrorWithCode
              (formatString ErrorMessage_FailToAcquireTokenOnBehalfOfUser
                 [Some "Access token is null"]) InternalError)
   | Resolves (Some result) =>
       match expiresOn result with
       | None => inl (TypeError "Cannot read properties of null (reading 'getTime')")
       | Some d => inr {| token := accessToken result; expiresOnTimestamp := getTime d |}
       end
   end, recordCall request s).
Proof.
  intros Hne request. run_getToken.
  fold (Spec.delegatedRequest (this s) (scopesArrayOf scopes)). fold request.
  destruct (scopesArrayOf scopes) as [|x l] eqn:E; [congruence|].
  destruct scopes; [| |discriminate E]; simpl;
    (destruct (acquireTokenOnBehalfOf _ _ _) as [err|[result|]]; simpl;
      [reflexivity | destruct (expiresOn result); reflexivity | reflexivity]).
Qed.

(** [getToken] never writes to the credential, the configuration or the
    clock. *)
Lemma getToken_frame (scopes : Scopes) (s : State) :
  this (snd (getToken scopes s)) = this s /\
  config (snd (getToken scopes s)) = config s /\
  now (snd (getToken scopes s)) = now s.
Proof.
  destruct (decide (scopes = ScopesOther)) as [->|Hty]; [by simpl|].
  destruct (decide (scopesArrayOf scopes = [])) as [Hempty|Hne].
  - by rewrite getToken_sso_path.
  - by rewrite getToken_exchange_path.
Qed.

Lemma generateAuthServerError_interaction (err : AuthError) :
  Spec.interactionRequired err ->
  generateAuthServerError err =
  ErrorWithCode ("Failed to get access token from AAD server, interaction required: "
                   +:+ concatUndefined (errorMessage err)) UiRequiredError.
Proof.
  unfold Spec.interactionRequired, generateAuthServerError. intros Hn.
  by rewrite bool_decide_eq_true_2.
Qed.

Lemma generateAuthServerError_expired (err : AuthError) (m : string) :
  ~ Spec.interactionRequired err ->
  errorMessage err = Some m ->
  Spec.contains m "AADSTS500133" ->
  generateAuthServerError err =
  ErrorWithCode ("Failed to get access token from AAD server, sso token expired: " +:+ m)
    TokenExpiredError.
Proof.
  unfold Spec.interactionRequired, generateAuthServerError. intros Hn Hm Hc.
  rewrite bool_decide_eq_false_2 by done. rewrite Hm. simpl.
  assert (m <> "") as Hne.
  { intros ->. destruct Hc as ([|? ?] & after & Hc); discriminate Hc. }
  rewrite (bool_decide_eq_false_2 _ Hne). simpl.
  rewrite bool_decide_eq_true_2; [done|]. by apply indexOf_contains.
Qed.

Lemma generateAuthServerError_service (err : AuthError) :
  ~ Spec.interactionRequired err ->
  ~ Spec.assertionExpired err ->
  generateAuthServerError err =
  ErrorWithCode (formatString ErrorMessage_FailToAcquireTokenOnBehalfOfUser
                   [errorMessage err]) ServiceError.
Proof.
  unfold Spec.interactionRequired, Spec.assertionExpired, generateAuthServerError.
  intros Hn He. rewrite bool_decide_eq_false_2 by done.
  destruct (errorMessage err) as [m|]; simpl; [|done].
  case_bool_decide; simpl; [done|].
  case_bool_decide as Hi; [|done].
  exfalso. apply He. exists m. split; [done|]. by apply indexOf_contains.
Qed.

(** A scope string normalises to no scopes exactly when it has nothing but
    spaces in it. *)
Lemma scopesArrayOf_string_empty (str : string) :
  scopesArrayOf (ScopesString str) = [] <-> Spec.onlySpaces str.
Proof.
  unfold scopesArrayOf. induction str as [|c rest IH]; simpl.
  - done.
  - case_bool_decide as Hc; simpl.
    + rewrite IH. tauto.
    + destruct (split " " rest) as [|w ws]; simpl; split; try done; tauto.
Qed.

End GetTokenRuns.

(* ===================================================================== *)
(** * [getToken]: expiry, the empty-scope short cut, repeated calls *)
(* ===================================================================== *)

Section GetTokenClaims.
Context `{Utils} `{IdentityProvider}.

(** C1 (amended).  Let the scopes be a string or an array of strings.  With
    an expired SSO token, [getToken] on scopes that normalise to none (the
    empty string, the empty array, a string of spaces, an array of empty
    strings) fails with [TokenExpiredError] and leaves the state as it was.
    On one or more scopes it does not check the expiry itself: it fails with
    [TokenExpiredError] exactly when the provider rejects the request with an
    error that does not ask for interaction and whose message carries
    [AADSTS500133]. *)
Theorem getToken_expired_sso (scopes : Scopes) (s : State) :
  Spec.stringOrStringArray scopes ->
  Spec.ssoExpired (this s) (now s) ->
  (scopesArrayOf scopes = [] ->
   getToken scopes s =
   (inl (ErrorWithCode "Sso token has already expired." TokenExpiredError), s)) /\
  (scopesArrayOf scopes <> [] ->
   (exists msg, fst (getToken scopes s) = inl (ErrorWithCode msg TokenExpiredError)) <->
   (exists err,
      acquireTokenOnBehalfOf (msalClient (this s)) (providerCalls s)
        (Spec.delegatedRequest (this s) (scopesArrayOf scopes)) = Rejects err /\
      ~ Spec.interactionRequired err /\ Spec.assertionExpired err)).
Proof.
  intros Htyped Hexp.
  assert (scopes <> ScopesOther) as Hty by (by intros ->).
  split.
  - intros Hempty. rewrite getToken_sso_path by done.
    rewrite bool_decide_eq_true_2; [done|].
    unfold Spec.ssoExpired, floorSeconds in *. lia.
  - intros Hne. rewrite getToken_exchange_path by done. simpl.
    destruct (acquireTokenOnBehalfOf _ _ _) as [err|[result|]] eqn:E; simpl.
    + split.
      * intros [msg Hmsg]. exists err. split; [done|].
        destruct (decide (Sdk.name err = "InteractionRequiredAuthError")) as [Hi|Hi].
        { rewrite generateAuthServerError_interaction in Hmsg by done. discriminate. }
        split; [done|].
        destruct (errorMessage err) as [m|] eqn:Em.
        -- destruct (decide (0 <= indexOf m "AADSTS500133")) as [Hc|Hc].
           ++ exists m. split; [done|]. by apply indexOf_contains.
           ++ rewrite generateAuthServerError_service in Hmsg; [discriminate|done|].
              intros (m' & Hm' & Hc'). rewrite Em in Hm'. injection Hm' as <-.
              by apply Hc, indexOf_contains.
        -- rewrite generateAuthServerError_service in Hmsg; [discriminate|done|].
           intros (m' & Hm' & _). rewrite Em in Hm'. discriminate.
      * intros (err' & [= <-] & Hi & m & Hm & Hc).
        eexists. f_equal. by eapply generateAuthServerError_expired.
    + split; [intros [msg Hmsg]|intros (err & ? & _)]; [|discriminate].
      destruct (expiresOn result); discriminate.
    + split; [intros [msg Hmsg]|intros (err & ? & _)]; discriminate.
Qed.

(** C5 (amended).  For an SSO token that has not expired, [getToken] on scopes
    that are a string or an array of strings and come to no scope at all once
    a string is split at the space character (U+0020) and empty entries are
    dropped returns the stored SSO [AccessToken] itself, token string and
    expiry, and leaves the state untouched: no request goes to the provider.
    The empty string and the empty array are such scopes, and so is exactly
    every string made of spaces. *)
Theorem getToken_empty_scopes (scopes : Scopes) (s : State) :
  scopes = ScopesString "" \/ scopes = ScopesArray [] \/
    (exists str, scopes = ScopesString str /\ Spec.onlySpaces str) \/
    (Spec.stringOrStringArray scopes /\ scopesArrayOf scopes = []) ->
  ~ Spec.ssoExpired (this s) (now s) ->
  getToken scopes s = (inr (ssoToken (this s)), s).
Proof.
  intros Hscopes Hfresh.
  assert (scopes <> ScopesOther /\ scopesArrayOf scopes = []) as [Hty Hempty].
  { destruct Hscopes as [->|[->|[(str & -> & Hsp)|[Htyped ?]]]]; try done.
    - split; [done|]. by apply scopesArrayOf_string_empty.
    - split; [by intros ->|done]. }
  rewrite getToken_sso_path by done.
  rewrite bool_decide_eq_false_2; [done|].
  unfold Spec.ssoExpired, floorSeconds in *. lia.
Qed.

End GetTokenClaims.

(** C1 (as stated, refuted).  The SSO token of [Stub.credential] expired long
    before [Stub.expiredState], yet a request for [["User.Read"]] succeeds with
    the provider's token: the scoped path never compares the clock with the
    SSO token's expiry. *)
Lemma expired_sso_scoped_request_succeeds :
  Spec.ssoExpired (this Stub.expiredState) (now Stub.expiredState) /\
  fst (@getToken Stub.utils Stub.grantsA1 Stub.userRead Stub.expiredState)
    = inr {| token := "A1"; expiresOnTimestamp := 1700003600000 |} /\
  forall msg,
    fst (@getToken Stub.utils Stub.grantsA1 Stub.userRead Stub.expiredState)
    <> inl (ErrorWithCode msg TokenExpiredError).
Proof.
  split; [vm_compute; reflexivity|].
  split; [reflexivity | intros msg; vm_compute; discriminate].
Qed.

Lemma getToken_expired_sso_witness :
  getToken (H := Stub.utils) (H0 := Stub.grantsA1) (ScopesString "") Stub.expiredState
  = (inl (ErrorWithCode "Sso token has already expired." TokenExpiredError),
     Stub.expiredState) /\
  exists msg,
    fst (getToken (H := Stub.utils) (H0 := Stub.reportsExpiredAssertion)
           Stub.userRead Stub.expiredState)
    = inl (ErrorWithCode msg TokenExpiredError).
Proof.
  split.
  - apply (@getToken_expired_sso Stub.utils Stub.grantsA1 (ScopesString "")
             Stub.expiredState); [exact I | vm_compute; reflexivity | reflexivity].
  - apply (@getToken_expired_sso Stub.utils Stub.reportsExpiredAssertion
             Stub.userRead Stub.expiredState);
      [repeat constructor; discriminate | vm_compute; reflexivity | discriminate |].
    eexists. split; [reflexivity|]. split; [discriminate|].
    eexists. split; [reflexivity|].
    exists EmptyString, ": Assertion is not within its valid time range.".
    reflexivity.
Defined.

(** C5 (as stated, refuted).  A scope string holding one tab is empty after
    splitting on whitespace, and the SSO token is still valid; but [getToken]
    sends it to the provider as the scope ["\t"] and returns the provider's
    token, not the SSO token. *)
Lemma tab_scope_reaches_provider :
  Spec.normalizeScopes (ScopesString Stub.tab) = [] /\
  ~ Spec.ssoExpired (this Stub.freshState) (now Stub.freshState) /\
  getToken (H := Stub.utils) (H0 := Stub.grantsA1) (ScopesString Stub.tab) Stub.freshState
  = (inr {| token := "A1"; expiresOnTimestamp := 1700003600000 |},
     recordCall {| oboAssertion := "sso-token-exp-1700000000"; scopes := [Stub.tab] |}
       Stub.freshState) /\
  fst (getToken (H := Stub.utils) (H0 := Stub.grantsA1) (ScopesString Stub.tab)
         Stub.freshState)
  <> inr (ssoToken (this Stub.freshState)).
Proof.
  split; [reflexivity|]. split; [vm_compute; discriminate|].
  split; [reflexivity | vm_compute; discriminate].
Qed.

Lemma getToken_empty_scopes_witness :
  getToken (H := Stub.utils) (H0 := Stub.grantsA1) (ScopesString "") Stub.freshState
  = (inr {| token := "sso-token-exp-1700000000"; expiresOnTimestamp := 1700000000 |},
     Stub.freshState) /\
  getToken (H := Stub.utils) (H0 := Stub.grantsA1) (ScopesArray []) Stub.freshState
  = (inr {| token := "sso-token-exp-1700000000"; expiresOnTimestamp := 1700000000 |},
     Stub.freshState) /\
  getToken (H := Stub.utils) (H0 := Stub.grantsA1) (ScopesArray [Some ""; Some ""])
    Stub.freshState
  = (inr {| token := "sso-token-exp-1700000000"; expiresOnTimestamp := 1700000000 |},
     Stub.freshState).
Proof.
  split; [|split].
  - apply (@getToken_empty_scopes Stub.utils Stub.grantsA1 (ScopesString "")
             Stub.freshState); [by left | vm_compute; discriminate].
  - apply (@getToken_empty_scopes Stub.utils Stub.grantsA1 (ScopesArray [])
             Stub.freshState); [by right; left | vm_compute; discriminate].
  - apply (@getToken_empty_scopes Stub.utils Stub.grantsA1
             (ScopesArray [Some ""; Some ""]) Stub.freshState);
      [right; right; right; split;
         [repeat (constructor; [discriminate|]); constructor | reflexivity]
      | vm_compute; discriminate].
Defined.


(* ===================================================================== *)
(** * [getToken] called again *)
(* ===================================================================== *)

Section RepeatedCalls.
Context `{Utils} `{IdentityProvider}.

(** C2 (amended).  The credential keeps no cache.  Two calls of [getToken]
    with the same one or more scopes send the same delegated request to the
    provider twice, once per call, whatever the clock reads at the second
    call; each call that returns hands back the access token the provider
    granted to that very request. *)
Theorem getToken_twice_two_exchanges (scopes : Scopes) (s : State) (later : Z) :
  scopesArrayOf scopes <> [] ->
  let request := Spec.delegatedRequest (this s) (scopesArrayOf scopes) in
  let first := getToken scopes s in
  let second := getToken scopes (setNow later (snd first)) in
  providerCalls (snd first) = providerCalls s ++ [request] /\
  providerCalls (snd second) = providerCalls s ++ [request; request] /\
  (forall a, fst first = inr a ->
     exists r, acquireTokenOnBehalfOf (msalClient (this s)) (providerCalls s) request
               = Resolves (Some r) /\ token a = accessToken r) /\
  (forall a, fst second = inr a ->
     exists r, acquireTokenOnBehalfOf (msalClient (this s))
                 (providerCalls s ++ [request]) request
               = Resolves (Some r) /\ token a = accessToken r).
Proof.
  intros Hne request first second. subst first second.
  rewrite (getToken_exchange_path scopes s Hne). fold request.
  rewrite (getToken_exchange_path scopes _ Hne). simpl. fold request.
  split; [done|]. split; [by rewrite <- app_assoc|].
  split; intros a.
  - destruct (acquireTokenOnBehalfOf _ (providerCalls s) request)
      as [err|[r|]]; [done| |done].
    destruct (expiresOn r); [|done]. intros [= <-]. by exists r.
  - destruct (acquireTokenOnBehalfOf _ (providerCalls s ++ [request]) request)
      as [err|[r|]]; [done| |done].
    destruct (expiresOn r); [|done]. intros [= <-]. by exists r.
Qed.

(** C10.  A failing [getToken], whatever made it fail, leaves the credential
    and the configuration as they were; a later [getToken] with the empty
    string or the empty array, made while the SSO token has not expired, still
    returns the original SSO token string. *)
Theorem getToken_failure_keeps_state (scopes : Scopes) (s s' : State) (e : Exception) :
  getToken scopes s = (inl e, s') ->
  this s' = this s /\
  config s' = config s /\
  forall (later : Z) (none : Scopes),
    none = ScopesString "" \/ none = ScopesArray [] ->
    ~ Spec.ssoExpired (this s) later ->
    exists sso,
      fst (getToken none (setNow later s')) = inr sso /\
      token sso = token (ssoToken (this s)) /\
      sso = ssoToken (this s).
Proof.
  intros Hrun.
  destruct (getToken_frame scopes s) as (Hthis & Hconfig & _).
  rewrite Hrun in Hthis, Hconfig. simpl in Hthis, Hconfig.
  split; [done|]. split; [done|].
  intros later none Hnone Hfresh.
  exists (ssoToken (this s)).
  rewrite getToken_sso_path.
  - simpl. rewrite Hthis. rewrite bool_decide_eq_false_2; [done|].
    unfold Spec.ssoExpired, floorSeconds in *. lia.
  - by destruct Hnone as [->| ->].
  - by destruct Hnone as [->| ->].
Qed.

End RepeatedCalls.

(** C2 (as stated, refuted).  Two calls with [["User.Read"]], both before
    anything expires: the provider is asked twice, and as it grants "A1" and
    then "A2" the two calls return different token values. *)
Lemma second_call_asks_provider_again :
  fst (getToken (H := Stub.utils) (H0 := Stub.grantsA1A2) Stub.userRead Stub.freshState)
  = inr {| token := "A1"; expiresOnTimestamp := 1700003600000 |} /\
  fst (getToken (H := Stub.utils) (H0 := Stub.grantsA1A2) Stub.userRead
         (snd (getToken (H := Stub.utils) (H0 := Stub.grantsA1A2) Stub.userRead
                 Stub.freshState)))
  = inr {| token := "A2"; expiresOnTimestamp := 1700003600000 |} /\
  length (providerCalls
            (snd (getToken (H := Stub.utils) (H0 := Stub.grantsA1A2) Stub.userRead
                    (snd (getToken (H := Stub.utils) (H0 := Stub.grantsA1A2)
                            Stub.userRead Stub.freshState))))) = 2%nat.
Proof. split; [|split]; vm_compute; reflexivity. Qed.

Lemma getToken_twice_two_exchanges_witness :
  providerCalls
    (snd (getToken (H := Stub.utils) (H0 := Stub.grantsA1A2) Stub.userRead
            (setNow 1699999999500
               (snd (getToken (H := Stub.utils) (H0 := Stub.grantsA1A2)
                       Stub.userRead Stub.freshState)))))
  = [ {| oboAssertion := "sso-token-exp-1700000000"; scopes := ["User.Read"] |};
      {| oboAssertion := "sso-token-exp-1700000000"; scopes := ["User.Read"] |} ].
Proof.
  apply (@getToken_twice_two_exchanges Stub.utils Stub.grantsA1A2 Stub.userRead
           Stub.freshState 1699999999500).
  discriminate.
Defined.

Lemma getToken_failure_keeps_state_witness :
  this Stub.expiredState = this Stub.expiredState /\
  exists sso,
    fst (getToken (H := Stub.utils) (H0 := Stub.grantsA1) (ScopesString "")
           (setNow 1699999999000 Stub.expiredState)) = inr sso /\
    token sso = "sso-token-exp-1700000000".
Proof.
  destruct (@getToken_failure_keeps_state Stub.utils Stub.grantsA1
              (ScopesArray []) Stub.expiredState Stub.expiredState
              (ErrorWithCode "Sso token has already expired." TokenExpiredError)
              eq_refl) as (Hthis & _ & Hlater).
  split; [exact Hthis|].
  destruct (Hlater 1699999999000 (ScopesString "") (or_introl eq_refl))
    as (sso & Hrun & Htoken & _).
  - vm_compute. discriminate.
  - exists sso. split; [exact Hrun | exact Htoken].
Defined.

(* ===================================================================== *)
(** * The constructor *)
(* ===================================================================== *)

Section Construction.
Context `{Utils} `{IdentityProvider}.

Lemma constructor_incomplete (raw : string) (config : option Configuration) :
  Spec.absentFields config <> [] ->
  constructor raw config =
  inl (ErrorWithCode
         (formatString ErrorMessage_InvalidConfiguration
            [Some (join ", " (Spec.absentFields config)); Some "undefined"])
         InvalidConfiguration).
Proof.
  intros Habsent. unfold constructor.
  rewrite missingConfigurations_absentFields.
  destruct (Spec.absentFields config); [done|]. reflexivity.
Qed.

Lemma constructor_complete (raw : string) (config : option Configuration) :
  Spec.absentFields config = [] ->
  exists client,
    constructor raw config =
    match parseJwt raw with
    | inl e => inl e
    | inr decoded =>
        inr {| msalClient := client;
               ssoToken := {| token := raw; expiresOnTimestamp := exp decoded |} |}
    end.
Proof.
  intros Hnone. unfold constructor.
  rewrite missingConfigurations_absentFields, Hnone. simpl.
  eexists. reflexivity.
Qed.

(** [getToken] does not read the global configuration. *)
Lemma getToken_ignores_config (scopes : Scopes) (s : State)
    (config' : option Configuration) :
  getToken scopes (setConfig config' s) =
  (fst (getToken scopes s), setConfig config' (snd (getToken scopes s))).
Proof.
  destruct (decide (scopes = ScopesOther)) as [->|Hty]; [reflexivity|].
  destruct (decide (scopesArrayOf scopes = [])) as [Hempty|Hne].
  - by rewrite !getToken_sso_path.
  - by rewrite !getToken_exchange_path.
Qed.

(** C3.  When any of [clientId], [authorityHost], [clientSecret], [tenantId]
    is absent from the configuration, the constructor throws
    [InvalidConfiguration] with the message template filled with the names of
    the absent fields, all of them and no other, joined by a comma.  When none
    is absent that check lets the constructor through, and what it returns is
    up to decoding the SSO token.  [getToken] gives the same result whatever
    the configuration has become since: it does not check it again. *)
Theorem constructor_checks_configuration (raw : string)
    (config : option Configuration) :
  (Spec.absentFields config <> [] ->
   constructor raw config =
   inl (ErrorWithCode
          (formatString ErrorMessage_InvalidConfiguration
             [Some (join ", " (Spec.absentFields config)); Some "undefined"])
          InvalidConfiguration)) /\
  (Spec.absentFields config = [] ->
   exists client,
     constructor raw config =
     match parseJwt raw with
     | inl e => inl e
     | inr decoded =>
         inr {| msalClient := client;
                ssoToken := {| token := raw; expiresOnTimestamp := exp decoded |} |}
     end) /\
  (forall (scopes : Scopes) (s : State) (config' : option Configuration),
     fst (getToken scopes (setConfig config' s)) = fst (getToken scopes s)).
Proof.
  split; [apply constructor_incomplete|].
  split; [apply constructor_complete|].
  intros scopes s config'. by rewrite getToken_ignores_config.
Qed.

(** C9.  With all four configuration values present, an SSO token string
    that [parseJwt] cannot decode makes the constructor throw what [parseJwt]
    threw.  So a credential that was constructed holds the string it was given,
    that string decodes, and the stored [expiresOnTimestamp] is the [exp] claim
    of the decoded token. *)
Theorem constructor_decodes_sso_token (raw : string) (config : option Configuration) :
  (forall e, Spec.absentFields config = [] -> parseJwt raw = inl e ->
             constructor raw config = inl e) /\
  (forall credential, constructor raw config = inr credential ->
     token (ssoToken credential) = raw /\
     exists decoded,
       parseJwt (token (ssoToken credential)) = inr decoded /\
       expiresOnTimestamp (ssoToken credential) = exp decoded).
Proof.
  split.
  - intros e Hnone He.
    destruct (constructor_complete raw config Hnone) as [client ->].
    by rewrite He.
  - intros credential Hc.
    destruct (decide (Spec.absentFields config = [])) as [Hnone|Hsome].
    + destruct (constructor_complete raw config Hnone) as [client Hrun].
      rewrite Hrun in Hc.
      destruct (parseJwt raw) as [e|decoded] eqn:Hd; [discriminate|].
      injection Hc as <-. simpl. split; [done|]. by exists decoded.
    + rewrite constructor_incomplete in Hc by done. discriminate.
Qed.

End Construction.

Lemma constructor_checks_configuration_witness :
  constructor (H := Stub.utils) "sso-token-exp-1700000000" Stub.loginOnlyConfig
  = inl (ErrorWithCode
           "clientId, authorityHost, clientSecret, tenantId in configuration is invalid: undefined."
           InvalidConfiguration) /\
  exists client,
    constructor (H := Stub.utils) "sso-token-exp-1700000000" Stub.fullConfig
    = inr {| msalClient := client;
             ssoToken := {| token := "sso-token-exp-1700000000";
                            expiresOnTimestamp := 1700000000 |} |}.
Proof.
  split.
  - apply (@constructor_checks_configuration Stub.utils Stub.grantsA1
             "sso-token-exp-1700000000" Stub.loginOnlyConfig).
    vm_compute. discriminate.
  - apply (@constructor_checks_configuration Stub.utils Stub.grantsA1
             "sso-token-exp-1700000000" Stub.fullConfig).
    vm_compute. reflexivity.
Defined.

Lemma constructor_decodes_sso_token_witness :
  constructor (H := Stub.utils) "invalid-sso-token" Stub.fullConfig
  = inl (ErrorWithCode
           "Parse jwt token failed in node env with error: Invalid token specified"
           InternalError) /\
  token (ssoToken Stub.credential) = "sso-token-exp-1700000000".
Proof.
  split.
  - apply (@constructor_decodes_sso_token Stub.utils "invalid-sso-token"
             Stub.fullConfig); vm_compute; reflexivity.
  - destruct (@constructor_decodes_sso_token Stub.utils "sso-token-exp-1700000000"
                Stub.fullConfig) as [_ Hheld].
    apply (Hheld Stub.credential). vm_compute. reflexivity.
Defined.

(* ===================================================================== *)
(** * The scoped exchange: provider errors and the granted token *)
(* ===================================================================== *)

Section ScopedExchange.
Context `{Utils} `{IdentityProvider}.

(** C4.  When the provider rejects the delegated request with [err],
    [getToken] throws an [ErrorWithCode]: [UiRequiredError] if [err] asks for
    interaction; otherwise [TokenExpiredError] if the message of [err] carries
    [AADSTS500133]; otherwise [ServiceError], its message being the template
    filled with the provider's message.  One error has one code, so the three
    cases exclude one another, in that order. *)
Theorem provider_rejection_mapping (scopes : Scopes) (s : State) (err : AuthError) :
  scopesArrayOf scopes <> [] ->
  acquireTokenOnBehalfOf (msalClient (this s)) (providerCalls s)
    (Spec.delegatedRequest (this s) (scopesArrayOf scopes)) = Rejects err ->
  exists msg code,
    fst (getToken scopes s) = inl (ErrorWithCode msg code) /\
    (Spec.interactionRequired err -> code = UiRequiredError) /\
    (~ Spec.interactionRequired err -> Spec.assertionExpired err ->
     code = TokenExpiredError) /\
    (~ Spec.interactionRequired err -> ~ Spec.assertionExpired err ->
     code = ServiceError /\
     msg = formatString ErrorMessage_FailToAcquireTokenOnBehalfOfUser
             [errorMessage err]).
Proof.
  intros Hne Hrej. rewrite getToken_exchange_path by done. rewrite Hrej. simpl.
  destruct (decide (Sdk.name err = "InteractionRequiredAuthError")) as [Hi|Hi].
  { rewrite generateAuthServerError_interaction by done.
    do 2 eexists. split; [reflexivity|]. repeat split; done. }
  assert (Spec.assertionExpired err \/ ~ Spec.assertionExpired err) as [He|He].
  { unfold Spec.assertionExpired. destruct (errorMessage err) as [m|].
    - destruct (decide (0 <= indexOf m "AADSTS500133")) as [Hc|Hc].
      + left. exists m. split; [done|]. by apply indexOf_contains.
      + right. intros (m' & [= <-] & Hc'). by apply Hc, indexOf_contains.
    - right. by intros (m' & ? & _). }
  - destruct He as (m & Hm & Hc).
    rewrite (generateAuthServerError_expired err m) by done.
    do 2 eexists. split; [reflexivity|].
    split; [done|]. split; [done|]. intros _ Hno. exfalso. apply Hno. by exists m.
  - rewrite generateAuthServerError_service by done.
    do 2 eexists. split; [reflexivity|]. repeat split; done.
Qed.

(** On a grant, the result carries the provider's token string and the
    [getTime()] of the provider's expiry date. *)
Lemma getToken_granted (scopes : Scopes) (s : State) (result : AuthenticationResult)
    (d : Date) :
  scopesArrayOf scopes <> [] ->
  acquireTokenOnBehalfOf (msalClient (this s)) (providerCalls s)
    (Spec.delegatedRequest (this s) (scopesArrayOf scopes)) = Resolves (Some result) ->
  expiresOn result = Some d ->
  fst (getToken scopes s) =
  inr {| token := accessToken result; expiresOnTimestamp := epochMs d |}.
Proof.
  intros Hne Hgrant Hd. rewrite getToken_exchange_path by done.
  by rewrite Hgrant, Hd.
Qed.

End ScopedExchange.

Lemma provider_rejection_mapping_witness :
  exists msg code,
    fst (getToken (H := Stub.utils) (H0 := Stub.reportsExpiredAssertion)
           Stub.userRead Stub.freshState) = inl (ErrorWithCode msg code) /\
    code = TokenExpiredError.
Proof.
  destruct (@provider_rejection_mapping Stub.utils Stub.reportsExpiredAssertion
              Stub.userRead Stub.freshState
              {| name := "ServerError";
                 errorMessage :=
                   Some "AADSTS500133: Assertion is not within its valid time range." |})
    as (msg & code & Hrun & _ & Hexpired & _).
  - discriminate.
  - reflexivity.
  - exists msg, code. split; [exact Hrun|]. apply Hexpired.
    + discriminate.
    + eexists. split; [reflexivity|].
      exists EmptyString, ": Assertion is not within its valid time range.".
      reflexivity.
Defined.

(** C6 (the code at the failing input).  The provider grants "A1" with the
    expiry date 2023-11-14T23:13:20Z, which is epoch second 1700003600.  The
    [AccessToken] that [getToken] builds carries 1700003600000, the date's
    [getTime()] in milliseconds, while the SSO token the same credential
    returns for no scopes carries its [exp] claim, 1700000000, in seconds. *)
Lemma scoped_exchange_expiry_in_milliseconds :
  fst (getToken (H := Stub.utils) (H0 := Stub.grantsA1) Stub.userRead Stub.freshState)
  = inr {| token := "A1"; expiresOnTimestamp := 1700003600000 |} /\
  floorSeconds (getTime (mkDate 1700003600000)) = 1700003600 /\
  fst (getToken (H := Stub.utils) (H0 := Stub.grantsA1) (ScopesArray []) Stub.freshState)
  = inr {| token := "sso-token-exp-1700000000"; expiresOnTimestamp := 1700000000 |}.
Proof. split; [|split]; vm_compute; reflexivity. Qed.

(* ===================================================================== *)
(** * [parseToken] *)
(* ===================================================================== *)

Section ParseTokenClaims.
Import SqlPlugin.
Context `{JwtDecode}.

(** C7 (amended).  For a token that decodes and whose [ver] claim is neither
    the string "1.0" nor the string "2.0", [parseToken] throws a bare [Error]
    with the message "invalide token"; the error carries no code. *)
Theorem parseToken_other_version (accessToken : string) (jwt : gmap string JsValue) :
  jwtDecode accessToken = inr jwt ->
  getProperty jwt "ver" <> JString "1.0" ->
  getProperty jwt "ver" <> JString "2.0" ->
  parseToken accessToken = inl (Error "invalide token") /\
  codeOf (Error "invalide token") = None.
Proof.
  intros Hjwt Hv1 Hv2. unfold parseToken. rewrite Hjwt.
  assert (forall lit, getProperty jwt "ver" <> JString lit ->
                      strictEqString (getProperty jwt "ver") lit = false) as Hneq.
  { intros lit Hlit. destruct (getProperty jwt "ver"); simpl; try done.
    apply bool_decide_eq_false_2. congruence. }
  by rewrite !Hneq.
Qed.

(** C8.  For a token that decodes with [ver] "1.0" or "2.0", [parseToken]
    returns a [TokenInfo] tagged [User] exactly when the class claim,
    [appidacr] for "1.0" and [azpacr] for "2.0", is the string "0", and tagged
    [ServicePrincipal] for every other value of it. *)
Theorem parseToken_user_type (accessToken : string) (jwt : gmap string JsValue)
    (class : JsValue) :
  jwtDecode accessToken = inr jwt ->
  (getProperty jwt "ver" = JString "1.0" /\ class = getProperty jwt "appidacr") \/
  (getProperty jwt "ver" = JString "2.0" /\ class = getProperty jwt "azpacr") ->
  exists info,
    parseToken accessToken = inr info /\
    (userType info = User <-> class = JString "0") /\
    (class <> JString "0" -> userType info = ServicePrincipal).
Proof.
  intros Hjwt Hver. unfold parseToken. rewrite Hjwt.
  assert (forall v, strictEqString v "0" = true <-> v = JString "0") as Hzero.
  { intros v. destruct v; simpl; try (split; [done | discriminate]).
    rewrite bool_decide_eq_true. split; congruence. }
  destruct Hver as [[Hv ->]|[Hv ->]]; rewrite Hv; simpl.
  - destruct (strictEqString (getProperty jwt "appidacr") "0") eqn:E;
      eexists; (split; [reflexivity|]); simpl.
    + apply Hzero in E. split; [done|]. by intros [].
    + split; [|done]. split; [discriminate|].
      intros Hc. apply Hzero in Hc. congruence.
  - destruct (strictEqString (getProperty jwt "azpacr") "0") eqn:E;
      eexists; (split; [reflexivity|]); simpl.
    + apply Hzero in E. split; [done|]. by intros [].
    + split; [|done]. split; [discriminate|].
      intros Hc. apply Hzero in Hc. congruence.
Qed.

End ParseTokenClaims.

(** C7 (as stated, refuted).  The token "v3" decodes with [ver] "3.0";
    [parseToken] throws a bare [Error], which is not an [ErrorWithCode] of any
    code. *)
Lemma parseToken_throws_bare_error :
  SqlPlugin.jwtDecode (JwtDecode := Stub.jwtDecoder) "v3"
  = inr (list_to_map [("ver", JString "3.0"); ("azpacr", JString "0")]) /\
  SqlPlugin.parseToken (H := Stub.jwtDecoder) "v3" = inl (Error "invalide token") /\
  forall msg code,
    SqlPlugin.parseToken (H := Stub.jwtDecoder) "v3" <> inl (ErrorWithCode msg code).
Proof.
  split; [reflexivity|]. split; [vm_compute; reflexivity|].
  intros msg code. vm_compute. discriminate.
Qed.

Lemma parseToken_other_version_witness :
  SqlPlugin.parseToken (H := Stub.jwtDecoder) "v3" = inl (Error "invalide token").
Proof.
  apply (@parseToken_other_version Stub.jwtDecoder "v3"
           (list_to_map [("ver", JString "3.0"); ("azpacr", JString "0")]));
    [reflexivity | vm_compute; discriminate | vm_compute; discriminate].
Defined.

Lemma parseToken_user_type_witness :
  exists info,
    SqlPlugin.parseToken (H := Stub.jwtDecoder) "user-v1" = inr info /\
    SqlPlugin.userType info = SqlPlugin.User.
Proof.
  destruct (@parseToken_user_type Stub.jwtDecoder "user-v1"
              (list_to_map [("ver", JString "1.0"); ("appidacr", JString "0");
                            ("name", JString "fake-name"); ("oid", JString "fake-oid")])
              (JString "0") eq_refl)
    as (info & Hrun & Huser & _).
  - left. split; vm_compute; reflexivity.
  - exists info. split; [exact Hrun|]. apply Huser. reflexivity.
Defined.

(* ===================================================================== *)
(** * [formatEndpoint] *)
(* ===================================================================== *)

Section FormatEndpoint.
Import SqlPlugin.

Ltac each_ascii c :=
  destruct c as [[] [] [] [] [] [] [] []]; vm_compute; try reflexivity;
  try discriminate; try (intros; discriminate).

Lemma lowered_class_char (c : ascii) :
  endpointClass (toLowerAscii c) = true -> isEndpointChar (toLowerAscii c) = true.
Proof. each_ascii c. Qed.

Lemma endpoint_char_lower (c : ascii) : isEndpointChar c = true -> toLowerAscii c = c.
Proof. each_ascii c. Qed.

Lemma endpoint_char_class (c : ascii) : isEndpointChar c = true -> endpointClass c = true.
Proof. each_ascii c. Qed.

Lemma removeOutside_lowered (s : string) :
  allChars isEndpointChar (removeOutside endpointClass (toLowerCase s)) = true.
Proof.
  induction s as [|c s IH]; simpl; [done|].
  destruct (endpointClass (toLowerAscii c)) eqn:E; [|done].
  simpl. by rewrite lowered_class_char, IH.
Qed.

Lemma allChars_slice1 (p : ascii -> bool) (s : string) :
  allChars p s = true -> allChars p (slice 1 s) = true.
Proof. destruct s as [|c s]; simpl; [done|]. by intros [_ ?]%andb_true_iff. Qed.

Lemma clean_toLowerCase (s : string) :
  allChars isEndpointChar s = true -> toLowerCase s = s.
Proof.
  induction s as [|c s IH]; simpl; [done|].
  intros [Hc Hs]%andb_true_iff. by rewrite endpoint_char_lower, IH.
Qed.

Lemma clean_removeOutside (s : string) :
  allChars isEndpointChar s = true -> removeOutside endpointClass s = s.
Proof.
  induction s as [|c s IH]; simpl; [done|].
  intros [Hc Hs]%andb_true_iff. by rewrite endpoint_char_class, IH.
Qed.

Lemma formatEndpoint_clean (s : string) :
  allChars isEndpointChar s = true ->
  formatEndpoint s = if bool_decide (charAt0 s = Some "-"%char) then slice 1 s else s.
Proof.
  intros Hs. unfold formatEndpoint.
  by rewrite clean_toLowerCase, clean_removeOutside.
Qed.

Lemma slice1_shorter (c : ascii) (s : string) : slice 1 (String c s) <> String c s.
Proof.
  simpl. intros Heq. apply (f_equal String.length) in Heq. simpl in Heq. lia.
Qed.

(** X1.  Whatever the endpoint, the formatted endpoint is made of lower-case
    letters, digits and hyphens only. *)
Theorem formatEndpoint_alphabet (endpoint : string) :
  allChars isAsciiChar endpoint = true ->
  allChars isEndpointChar (formatEndpoint endpoint) = true.
Proof.
  intros _. unfold formatEndpoint. case_bool_decide.
  - apply allChars_slice1, removeOutside_lowered.
  - apply removeOutside_lowered.
Qed.

(** X2.  An endpoint comes back unchanged exactly when it is already made of
    lower-case letters, digits and hyphens and does not begin with a hyphen. *)
Theorem formatEndpoint_fixed_point (endpoint : string) :
  allChars isAsciiChar endpoint = true ->
  formatEndpoint endpoint = endpoint <->
  allChars isEndpointChar endpoint = true /\ charAt0 endpoint <> Some "-"%char.
Proof.
  intros Hascii. split.
  - intros Hfix.
    assert (allChars isEndpointChar endpoint = true) as Hclean.
    { rewrite <- Hfix. by apply formatEndpoint_alphabet. }
    split; [done|]. intros Hhyphen.
    rewrite formatEndpoint_clean in Hfix by done.
    rewrite bool_decide_eq_true_2 in Hfix by done.
    destruct endpoint as [|c rest]; [discriminate|].
    by apply slice1_shorter in Hfix.
  - intros [Hclean Hhyphen]. rewrite formatEndpoint_clean by done.
    by rewrite bool_decide_eq_false_2.
Qed.

(** X3.  Only one leading hyphen is taken off: formatting a formatted endpoint
    again changes nothing exactly when the formatted endpoint does not begin
    with a hyphen (as it still does for an endpoint such as "--a"). *)
Theorem formatEndpoint_again (endpoint : string) :
  allChars isAsciiChar endpoint = true ->
  formatEndpoint (formatEndpoint endpoint) = formatEndpoint endpoint <->
  charAt0 (formatEndpoint endpoint) <> Some "-"%char.
Proof.
  intros Hascii.
  pose proof (formatEndpoint_alphabet endpoint Hascii) as Hclean.
  rewrite (formatEndpoint_clean _ Hclean). case_bool_decide as Hhyphen.
  - split; [|done]. intros Heq.
    destruct (formatEndpoint endpoint) as [|c rest]; [discriminate|].
    by apply slice1_shorter in Heq.
  - done.
Qed.

End FormatEndpoint.

Lemma formatEndpoint_alphabet_witness :
  allChars isAsciiChar "My_Server-01.Database.Windows.NET" = true /\
  allChars SqlPlugin.isEndpointChar
    (SqlPlugin.formatEndpoint "My_Server-01.Database.Windows.NET") = true.
Proof.
  split; [reflexivity|].
  apply (formatEndpoint_alphabet "My_Server-01.Database.Windows.NET"). reflexivity.
Defined.

Lemma formatEndpoint_fixed_point_witness :
  SqlPlugin.formatEndpoint "my-server01" = "my-server01".
Proof.
  apply (formatEndpoint_fixed_point "my-server01"); [reflexivity|].
  split; [reflexivity | discriminate].
Defined.

Lemma formatEndpoint_again_witness :
  SqlPlugin.formatEndpoint (SqlPlugin.formatEndpoint "--a")
  <> SqlPlugin.formatEndpoint "--a".
Proof.
  intros Heq.
  apply (formatEndpoint_again "--a") in Heq; [|reflexivity].
  apply Heq. reflexivity.
Defined.

(* ===================================================================== *)
(** * [parseToken]: when it returns, and what it fills in *)
(* ===================================================================== *)

Section ParseTokenMore.
Import SqlPlugin.
Context `{JwtDecode}.

Lemma strictEqString_true (v : JsValue) (lit : string) :
  strictEqString v lit = true <-> v = JString lit.
Proof.
  destruct v; simpl; try (split; [done | discriminate]).
  rewrite bool_decide_eq_true. split; congruence.
Qed.

(** X4.  [parseToken] returns a [TokenInfo] exactly when the token decodes and
    its [ver] claim is the string "1.0" or the string "2.0"; a [ver] that is
    missing, a number or any other string makes it throw. *)
Theorem parseToken_returns_iff (accessToken : string) :
  (exists info, parseToken accessToken = inr info) <->
  (exists jwt, jwtDecode accessToken = inr jwt /\
               (getProperty jwt "ver" = JString "1.0" \/
                getProperty jwt "ver" = JString "2.0")).
Proof.
  unfold parseToken. destruct (jwtDecode accessToken) as [e|jwt].
  { split; [intros [info ?]|intros (jwt & ? & _)]; discriminate. }
  destruct (strictEqString (getProperty jwt "ver") "1.0") eqn:E1.
  { apply strictEqString_true in E1. split.
    - intros _. exists jwt. auto.
    - intros _. destruct (strictEqString _ "0"); eauto. }
  destruct (strictEqString (getProperty jwt "ver") "2.0") eqn:E2.
  { apply strictEqString_true in E2. split.
    - intros _. exists jwt. auto.
    - intros _. destruct (strictEqString _ "0"); eauto. }
  split; [intros [info ?]; discriminate|].
  intros (jwt' & [= <-] & [Hv|Hv]); apply strictEqString_true in Hv; congruence.
Qed.

(** X5.  In the [TokenInfo] that [parseToken] returns, [objectId] is the [oid]
    claim; [name] is the [name] claim for a user and the [appid] claim for a
    service principal. *)
Theorem parseToken_identity_fields (accessToken : string)
    (jwt : gmap string JsValue) (info : TokenInfo) :
  jwtDecode accessToken = inr jwt ->
  parseToken accessToken = inr info ->
  objectId info = getProperty jwt "oid" /\
  name info = match userType info with
              | User => getProperty jwt "name"
              | ServicePrincipal => getProperty jwt "appid"
              end.
Proof.
  intros Hjwt. unfold parseToken. rewrite Hjwt.
  destruct (strictEqString (getProperty jwt "ver") "1.0");
    [|destruct (strictEqString (getProperty jwt "ver") "2.0"); [|discriminate]];
    (destruct (strictEqString _ "0"); intros [= <-]; done).
Qed.

(** X6.  Each version reads its own class claim only.  For a "1.0" token the
    result does not change with the [azpacr] claim, and for a "2.0" token it
    does not change with the [appidacr] claim. *)
Theorem parseToken_other_class_claim_ignored (token1 token2 : string)
    (jwt : gmap string JsValue) (other : string) (v : JsValue) :
  jwtDecode token1 = inr jwt ->
  jwtDecode token2 = inr (<[other := v]> jwt) ->
  (getProperty jwt "ver" = JString "1.0" /\ other = "azpacr") \/
  (getProperty jwt "ver" = JString "2.0" /\ other = "appidacr") ->
  parseToken token2 = parseToken token1.
Proof.
  intros H1 H2 Hver. unfold parseToken. rewrite H1, H2.
  assert (forall k, k <> other ->
            getProperty (<[other := v]> jwt) k = getProperty jwt k) as Hget.
  { intros k Hk. unfold getProperty. by rewrite lookup_insert_ne. }
  destruct Hver as [[Hv ->]|[Hv ->]];
    rewrite !(Hget "ver"), Hv by done; simpl;
    rewrite ?(Hget "appidacr"), ?(Hget "azpacr"), !(Hget "name"),
      !(Hget "oid"), !(Hget "appid") by done; reflexivity.
Qed.

End ParseTokenMore.

Lemma parseToken_identity_fields_witness :
  exists info,
    SqlPlugin.parseToken (H := Stub.jwtDecoder) "app-v2" = inr info /\
    SqlPlugin.objectId info = JString "fake-oid" /\
    SqlPlugin.name info = JString "fake-appid".
Proof.
  exists (SqlPlugin.mkTokenInfo (JString "fake-appid") (JString "fake-oid")
            SqlPlugin.ServicePrincipal).
  split; [vm_compute; reflexivity|].
  destruct (@parseToken_identity_fields Stub.jwtDecoder "app-v2"
              (list_to_map [("ver", JString "2.0"); ("azpacr", JString "1");
                            ("appid", JString "fake-appid"); ("oid", JString "fake-oid")])
              (SqlPlugin.mkTokenInfo (JString "fake-appid") (JString "fake-oid")
                 SqlPlugin.ServicePrincipal))
    as [Hoid Hname]; [reflexivity | vm_compute; reflexivity |].
  split; [exact Hoid | exact Hname].
Defined.

Lemma parseToken_other_class_claim_ignored_witness :
  SqlPlugin.parseToken (H := StubMore.jwtDecoder) "user-v1-azpacr"
  = SqlPlugin.parseToken (H := StubMore.jwtDecoder) "user-v1".
Proof.
  apply (@parseToken_other_class_claim_ignored StubMore.jwtDecoder
           "user-v1" "user-v1-azpacr" StubMore.userV1Claims "azpacr" (JString "1"));
    [reflexivity | reflexivity | left; split; reflexivity].
Defined.

(* ===================================================================== *)
(** * [getToken]: the scopes it sends, the calls it makes, how it fails *)
(* ===================================================================== *)

Section SplitJoin.

Lemma split_no_space (w : string) : hasNoSpace w = true -> split " " w = [w].
Proof.
  unfold hasNoSpace. induction w as [|c w IH]; simpl; [done|].
  intros [Hc Hw]%andb_true_iff. apply negb_true_iff in Hc. rewrite Hc.
  by rewrite IH.
Qed.

Lemma split_word_space (w rest : string) :
  hasNoSpace w = true ->
  split " " (w +:+ String " " rest) = w :: split " " rest.
Proof.
  unfold hasNoSpace. induction w as [|c w IH]; simpl; [done|].
  intros [Hc Hw]%andb_true_iff. apply negb_true_iff in Hc. rewrite Hc.
  by rewrite IH.
Qed.

(** Joining words that hold no space and splitting at the space gives the
    words back. *)
Lemma split_join (l : list string) :
  l <> [] ->
  Forall (fun w => hasNoSpace w = true) l ->
  split " " (join " " l) = l.
Proof.
  intros Hne Hall. induction Hall as [|w l Hw Hall IH]; [done|].
  destruct l as [|w' l'].
  - simpl. by apply split_no_space.
  - change (join " " (w :: w' :: l')) with (w +:+ String " " (join " " (w' :: l'))).
    rewrite split_word_space by done. by rewrite IH.
Qed.

Lemma split_words_no_space (s : string) :
  Forall (fun w => hasNoSpace w = true) (split " " s).
Proof.
  induction s as [|c s IH]; simpl; [by repeat constructor|].
  case_bool_decide as Hc.
  - by constructor.
  - destruct (split " " s) as [|w ws].
    { constructor; [|done]. unfold hasNoSpace. simpl.
      by rewrite bool_decide_eq_false_2. }
    inversion IH as [|? ? Hw Hws]; subst. constructor; [|done].
    unfold hasNoSpace in *. simpl. by rewrite bool_decide_eq_false_2, Hw.
Qed.

End SplitJoin.

Section GetTokenMore.
Context `{Utils} `{IdentityProvider}.

Lemma keepScope_Some (x : option string) (w : string) :
  keepScope x = Some w <-> x = Some w /\ w <> "".
Proof.
  unfold keepScope. destruct x as [v|].
  - case_bool_decide as Hv.
    + split; [discriminate|]. intros [[= ->] Hw]. done.
    + split; [intros [= ->]; done | intros [[= ->] _]; done].
  - split; [discriminate | intros [? _]; discriminate].
Qed.

Lemma scopesArrayOf_nonempty_words (scopes : Scopes) :
  Forall (fun w => w <> "") (scopesArrayOf scopes).
Proof.
  unfold scopesArrayOf. apply Forall_forall. intros w Hw.
  apply list_elem_of_omap in Hw as (x & _ & Hx).
  by apply keepScope_Some in Hx as [_ ?].
Qed.

Lemma scopesArrayOf_string_no_space (str : string) :
  Forall (fun w => hasNoSpace w = true) (scopesArrayOf (ScopesString str)).
Proof.
  unfold scopesArrayOf. apply Forall_forall. intros w Hw.
  apply list_elem_of_omap in Hw as (x & Hin & Hx).
  apply keepScope_Some in Hx as [-> _].
  apply list_elem_of_fmap in Hin as (w' & [= <-] & Hin).
  pose proof (split_words_no_space str) as Hall.
  by eapply Forall_forall in Hall.
Qed.

(** [getToken] looks at its argument only through its type and the scopes
    that survive normalisation. *)
Lemma getToken_by_scopesArray (scopes1 scopes2 : Scopes) (s : State) :
  scopes1 <> ScopesOther -> scopes2 <> ScopesOther ->
  scopesArrayOf scopes1 = scopesArrayOf scopes2 ->
  getToken scopes1 s = getToken scopes2 s.
Proof.
  intros H1 H2 Heq.
  destruct (decide (scopesArrayOf scopes1 = [])) as [Hempty|Hne].
  - rewrite !getToken_sso_path; congruence.
  - rewrite !getToken_exchange_path by congruence. simpl. by rewrite Heq.
Qed.

(** X7.  The two ways of passing scopes agree: a string of scopes separated
    by single spaces gets the same answer, with the same effect on the state,
    as the array of those scopes. *)
Theorem getToken_string_as_array (l : list string) (s : State) :
  Forall (fun w => hasNoSpace w = true) l ->
  getToken (ScopesString (join " " l)) s = getToken (ScopesArray (Some <$> l)) s.
Proof.
  intros Hall. apply getToken_by_scopesArray; [done..|].
  unfold scopesArrayOf. destruct l as [|w l]; [reflexivity|].
  by rewrite split_join.
Qed.

(** X9.  One [getToken] makes at most one call to the provider, and makes it
    exactly when a scope is left after normalisation; the requests made
    before stay on record, in order. *)
Theorem getToken_provider_calls (scopes : Scopes) (s : State) :
  providerCalls (snd (getToken scopes s)) =
  providerCalls s ++
  (if bool_decide (scopesArrayOf scopes = []) then []
   else [Spec.delegatedRequest (this s) (scopesArrayOf scopes)]).
Proof.
  case_bool_decide as Hempty.
  - rewrite app_nil_r.
    destruct (decide (scopes = ScopesOther)) as [->|Hty]; [reflexivity|].
    by rewrite getToken_sso_path.
  - by rewrite getToken_exchange_path.
Qed.

(** X8.  A request that [getToken] sends to the provider carries the held SSO
    token as the assertion and one or more scopes, none of them empty; when
    the scopes were given as a string, none of them holds a space. *)
Theorem getToken_request_well_formed (scopes : Scopes) (s : State)
    (request : OnBehalfOfRequest) :
  providerCalls (snd (getToken scopes s)) = providerCalls s ++ [request] ->
  oboAssertion request = token (ssoToken (this s)) /\
  Sdk.scopes request <> [] /\
  Forall (fun w => w <> "") (Sdk.scopes request) /\
  (forall str, scopes = ScopesString str ->
               Forall (fun w => hasNoSpace w = true) (Sdk.scopes request)).
Proof.
  rewrite getToken_provider_calls. intros Hcalls%app_inv_head.
  case_bool_decide as Hempty; [discriminate|]. injection Hcalls as <-.
  simpl. split; [done|]. split; [done|].
  split; [apply scopesArrayOf_nonempty_words|].
  intros str ->. apply scopesArrayOf_string_no_space.
Qed.

Lemma generateAuthServerError_coded (err : AuthError) :
  exists msg code,
    generateAuthServerError err = ErrorWithCode msg code /\
    (code = UiRequiredError \/ code = TokenExpiredError \/ code = ServiceError).
Proof.
  unfold generateAuthServerError.
  case_bool_decide; [eauto 6|].
  destruct (negb (falsy (errorMessage err)) && _); eauto 6.
Qed.

(** X10.  [getToken] fails with [InternalError] exactly when it asked the
    provider and the provider resolved with [null]. *)
Theorem getToken_internal_error_iff (scopes : Scopes) (s : State) :
  (exists msg, fst (getToken scopes s) = inl (ErrorWithCode msg InternalError)) <->
  scopesArrayOf scopes <> [] /\
  acquireTokenOnBehalfOf (msalClient (this s)) (providerCalls s)
    (Spec.delegatedRequest (this s) (scopesArrayOf scopes)) = Resolves None.
Proof.
  destruct (decide (scopesArrayOf scopes = [])) as [Hempty|Hne].
  - split; [|intros [Hne _]; done]. intros [msg Hmsg]. exfalso.
    destruct (decide (scopes = ScopesOther)) as [->|Hty]; [discriminate|].
    rewrite getToken_sso_path in Hmsg by done. simpl in Hmsg.
    case_bool_decide; discriminate.
  - rewrite getToken_exchange_path by done. simpl.
    destruct (acquireTokenOnBehalfOf _ _ _) as [err|[result|]]; simpl.
    + split; [|intros [_ Hout]; discriminate]. intros [msg Hmsg]. exfalso.
      destruct (generateAuthServerError_coded err) as (m & c & Hc & Hcode).
      rewrite Hc in Hmsg. injection Hmsg as _ ->.
      destruct Hcode as [?|[?|?]]; discriminate.
    + split; [|intros [_ Hout]; discriminate]. intros [msg Hmsg]. exfalso.
      destruct (expiresOn result); discriminate.
    + split; [done|]. intros _. eauto.
Qed.

(** X11.  Take scopes that are a string or an array of strings, and leave
    aside the calls that the provider rejects.  Then every failure of
    [getToken] is an [ErrorWithCode] but one: when the provider resolves with
    a result whose [expiresOn] is [null], a bare [TypeError] without a code
    escapes. *)
Theorem getToken_uncoded_failure_iff (scopes : Scopes) (s : State) (e : Exception) :
  Spec.stringOrStringArray scopes ->
  scopesArrayOf scopes = [] \/
    (exists resolved,
       acquireTokenOnBehalfOf (msalClient (this s)) (providerCalls s)
         (Spec.delegatedRequest (this s) (scopesArrayOf scopes)) = Resolves resolved) ->
  fst (getToken scopes s) = inl e ->
  codeOf e = None <->
  scopesArrayOf scopes <> [] /\
  exists result,
    acquireTokenOnBehalfOf (msalClient (this s)) (providerCalls s)
      (Spec.delegatedRequest (this s) (scopesArrayOf scopes))
    = Resolves (Some result) /\
    expiresOn result = None.
Proof.
  intros Htyped Hresolved.
  assert (scopes <> ScopesOther) as Hty by (by intros ->).
  destruct (decide (scopesArrayOf scopes = [])) as [Hempty|Hne].
  - intros He. split; [|intros [Hne _]; done]. intros Hcode. exfalso.
    rewrite getToken_sso_path in He by done. simpl in He.
    case_bool_decide; [|discriminate]. injection He as <-. discriminate.
  - destruct Hresolved as [?|[resolved Hresolved]]; [done|].
    rewrite getToken_exchange_path by done. simpl. rewrite Hresolved.
    destruct resolved as [result|]; simpl.
    + destruct (expiresOn result) eqn:Hexp; [discriminate|].
      intros [= <-]. split; [|done]. intros _. split; [done|]. by exists result.
    + intros [= <-]. split; [discriminate|].
      intros [_ (r & Hout & _)]; discriminate.
Qed.

End GetTokenMore.

Lemma getToken_string_as_array_witness :
  getToken (H := Stub.utils) (H0 := Stub.grantsA1)
    (ScopesString "User.Read Application.Read.All") Stub.freshState
  = getToken (H := Stub.utils) (H0 := Stub.grantsA1)
      (ScopesArray [Some "User.Read"; Some "Application.Read.All"]) Stub.freshState.
Proof.
  apply (@getToken_string_as_array Stub.utils Stub.grantsA1
           ["User.Read"; "Application.Read.All"] Stub.freshState).
  repeat constructor.
Defined.

Lemma getToken_request_well_formed_witness :
  Forall (fun w => hasNoSpace w = true) ["User.Read"; "Mail.Read"].
Proof.
  destruct (@getToken_request_well_formed Stub.utils Stub.grantsA1
              (ScopesString " User.Read  Mail.Read ") Stub.freshState
              {| oboAssertion := "sso-token-exp-1700000000";
                 scopes := ["User.Read"; "Mail.Read"] |} eq_refl)
    as (_ & _ & _ & Hwords).
  exact (Hwords " User.Read  Mail.Read " eq_refl).
Defined.

Lemma getToken_uncoded_failure_iff_witness :
  codeOf (TypeError "Cannot read properties of null (reading 'getTime')") = None <->
  scopesArrayOf Stub.userRead <> [] /\
  exists result,
    acquireTokenOnBehalfOf (IdentityProvider := StubMore.grantsWithoutExpiry)
      (msalClient (this Stub.freshState)) (providerCalls Stub.freshState)
      (Spec.delegatedRequest (this Stub.freshState) (scopesArrayOf Stub.userRead))
    = Resolves (Some result) /\
    expiresOn result = None.
Proof.
  apply (@getToken_uncoded_failure_iff Stub.utils StubMore.grantsWithoutExpiry
           Stub.userRead Stub.freshState).
  - repeat constructor. discriminate.
  - right. eexists. reflexivity.
  - reflexivity.
Defined.

(* ===================================================================== *)
(** * The constructor: the client it builds, and the first [getToken] *)
(* ===================================================================== *)

Section ConstructionMore.
Context `{Utils} `{IdentityProvider}.

(** X12.  With the four values configured and a token that decodes, the
    constructor hands MSAL the configured client id and secret, and as the
    authority the authority host and the tenant id joined by a slash. *)
Theorem constructor_builds_client (raw : string) (a : AuthenticationConfiguration)
    (id host secret tenant : string) (decoded : SSOTokenInfoBase) :
  clientId a = Some id -> authorityHost a = Some host ->
  clientSecret a = Some secret -> tenantId a = Some tenant ->
  id <> "" -> host <> "" -> secret <> "" -> tenant <> "" ->
  parseJwt raw = inr decoded ->
  constructor raw (Some {| authentication := Some a |}) =
  inr {| msalClient := {| auth_clientId := id;
                          auth_authority := host +:+ "/" +:+ tenant;
                          auth_clientSecret := secret |};
         ssoToken := {| token := raw; expiresOnTimestamp := exp decoded |} |}.
Proof.
  intros Hid Hhost Hsecret Htenant ? ? ? ? Hdecoded.
  unfold constructor, missingConfigurations, authProperty. simpl.
  rewrite Hid, Hhost, Hsecret, Htenant. simpl.
  rewrite (bool_decide_eq_false_2 (id = "")), (bool_decide_eq_false_2 (host = "")),
    (bool_decide_eq_false_2 (secret = "")), (bool_decide_eq_false_2 (tenant = ""))
    by done.
  simpl. by rewrite Hdecoded.
Qed.

(** X13.  A credential fresh from the constructor answers [getToken("")]
    with the very string it was constructed from and the [exp] claim of that
    string, as long as the clock has not passed [exp]; the provider is not
    asked. *)
Theorem constructor_then_getToken (raw : string) (config : option Configuration)
    (credential : OnBehalfOfUserCredential) (decoded : SSOTokenInfoBase) (s : State) :
  constructor raw config = inr credential ->
  parseJwt raw = inr decoded ->
  this s = credential ->
  floorSeconds (now s) <= exp decoded ->
  getToken (ScopesString "") s =
  (inr {| token := raw; expiresOnTimestamp := exp decoded |}, s).
Proof.
  intros Hc Hdecoded Hthis Hfresh.
  assert (ssoToken credential =
          {| token := raw; expiresOnTimestamp := exp decoded |}) as Hsso.
  { destruct (decide (Spec.absentFields config = [])) as [Hnone|Hsome].
    - destruct (constructor_complete raw config Hnone) as [client Hrun].
      rewrite Hrun, Hdecoded in Hc. injection Hc as <-. reflexivity.
    - rewrite constructor_incomplete in Hc by done. discriminate. }
  rewrite getToken_sso_path by done. rewrite Hthis, Hsso. simpl.
  rewrite bool_decide_eq_false_2; [done | lia].
Qed.

End ConstructionMore.

Lemma constructor_builds_client_witness :
  exists sso,
    constructor (H := Stub.utils) "sso-token-exp-1700000000" Stub.fullConfig
    = inr {| msalClient :=
               {| auth_clientId := "fake_client_id";
                  auth_authority := "https://login.microsoftonline.com/fake_tenant_id";
                  auth_clientSecret := "fake_client_secret" |};
             ssoToken := sso |}.
Proof.
  eexists.
  apply (@constructor_builds_client Stub.utils "sso-token-exp-1700000000"
           {| clientId := Some "fake_client_id";
              authorityHost := Some "https://login.microsoftonline.com";
              clientSecret := Some "fake_client_secret";
              tenantId := Some "fake_tenant_id";
              initiateLoginEndpoint := None;
              simpleAuthEndpoint := None |}
           "fake_client_id" "https://login.microsoftonline.com"
           "fake_client_secret" "fake_tenant_id" {| exp := 1700000000 |});
    try reflexivity; discriminate.
Defined.

Lemma constructor_then_getToken_witness :
  getToken (H := Stub.utils) (H0 := Stub.grantsA1) (ScopesString "") Stub.freshState
  = (inr {| token := "sso-token-exp-1700000000"; expiresOnTimestamp := 1700000000 |},
     Stub.freshState).
Proof.
  apply (@constructor_then_getToken Stub.utils Stub.grantsA1
           "sso-token-exp-1700000000" Stub.fullConfig Stub.credential
           {| exp := 1700000000 |} Stub.freshState);
    [reflexivity | reflexivity | reflexivity | vm_compute; discriminate].
Defined.

(* ===================================================================== *)
(** * The local environment of the debug helpers *)
(* ===================================================================== *)

Section PrefixFacts.

Lemma startsWith_iff (key prefix : string) :
  startsWith key prefix = true <-> exists rest, key = prefix +:+ rest.
Proof.
  unfold startsWith. split.
  - apply prefix_split.
  - intros [rest ->]. apply prefix_append.
Qed.

Lemma slice_append (prefix rest : string) :
  slice (String.length prefix) (prefix +:+ rest) = rest.
Proof. induction prefix as [|c prefix IH]; simpl; [by destruct rest|done]. Qed.

Lemma append_inj (prefix a b : string) : prefix +:+ a = prefix +:+ b -> a = b.
Proof.
  induction prefix as [|c prefix IH]; simpl; [done|]. intros [= Heq]. by apply IH.
Qed.

End PrefixFacts.

Section LocalEnv.
Import Debug.
Context `{Packages}.

(** What [getLocalEnv] selects is read back under the key without the
    prefix. *)
Lemma selectByPrefix_lookup (prefix : string) (env : gmap string string) (k : string) :
  selectByPrefix prefix env !! k =
  if bool_decide (k = "__proto__") then None else kept (env !! (prefix +:+ k)).
Proof.
  unfold selectByPrefix. revert k.
  apply (map_fold_weak_ind
           (fun result env =>
              forall k, result !! k =
                        if bool_decide (k = "__proto__") then None
                        else kept (env !! (prefix +:+ k)))).
  - intros k. rewrite !lookup_empty. by case_bool_decide.
  - intros key value m result Hfresh IH k.
    destruct (startsWith key prefix) eqn:Hstarts; simpl.
    + apply startsWith_iff in Hstarts as [rest ->].
      rewrite slice_append. unfold assign.
      destruct (decide (rest = k)) as [->|Hk].
      * rewrite lookup_insert_eq. unfold kept, falsy. simpl.
        case_bool_decide as Hv; simpl.
        -- rewrite IH, Hfresh. by case_bool_decide.
        -- case_bool_decide as Hproto.
           ++ rewrite IH. by rewrite bool_decide_eq_true_2.
           ++ by rewrite lookup_insert_eq.
      * rewrite (lookup_insert_ne m); [|by intros ?%append_inj].
        case_bool_decide; simpl; [done|].
        case_bool_decide; [done|]. by rewrite lookup_insert_ne.
    + rewrite lookup_insert_ne; [done|].
      intros ->. rewrite (proj2 (startsWith_iff _ _)) in Hstarts; [done|by exists k].
Qed.

Lemma selectByPrefix_lookup_own (prefix : string) (env : gmap string string)
    (k : string) :
  k <> "__proto__" ->
  selectByPrefix prefix env !! k = kept (env !! (prefix +:+ k)).
Proof. intros Hk. by rewrite selectByPrefix_lookup, bool_decide_eq_false_2. Qed.

Lemma getLocalEnv_read (w : Surroundings) (prefix workspacePath contents : string)
    (others : list string) :
  workspaceFolders w = Some (workspacePath :: others) ->
  pathExists w (pathJoin [workspacePath; "." +:+ ConfigFolderName; localEnvFileName])
    = true ->
  readFile w (pathJoin [workspacePath; "." +:+ ConfigFolderName; localEnvFileName])
    = inr contents ->
  getLocalEnv w prefix =
  inr (if bool_decide (0 < size (selectByPrefix prefix (dotenvParse contents)))%nat
       then Some (selectByPrefix prefix (dotenvParse contents)) else None).
Proof. intros Hw He Hr. unfold getLocalEnv. by rewrite Hw, He, Hr. Qed.

(** When [getLocalEnv] returns an object, the file it read is there to be
    named. *)
Lemma getLocalEnv_Some_inv (w : Surroundings) (prefix : string)
    (result : gmap string string) :
  getLocalEnv w prefix = inr (Some result) ->
  exists workspacePath others contents,
    workspaceFolders w = Some (workspacePath :: others) /\
    readFile w (pathJoin [workspacePath; "." +:+ ConfigFolderName; localEnvFileName])
      = inr contents /\
    result = selectByPrefix prefix (dotenvParse contents) /\
    result <> ∅.
Proof.
  unfold getLocalEnv.
  destruct (workspaceFolders w) as [[|workspacePath others]|]; [done| |done].
  destruct (pathExists w _); simpl; [|done].
  destruct (readFile w _) as [e|contents] eqn:Hr; [done|].
  case_bool_decide as Hsize; [|done]. intros [= <-].
  exists workspacePath, others, contents.
  split; [done|]. split; [done|]. split; [done|].
  apply map_size_non_empty_iff. lia.
Qed.

(** X14.  The object that [getLocalEnv(prefix)] returns is never empty and
    has no entry of its own named [__proto__]; any other name [k] holds the
    value that the parsed [local.env] of the first workspace folder has for
    [prefix + k], if that value is not empty, and nothing otherwise. *)
Theorem getLocalEnv_lookup (w : Surroundings) (prefix workspacePath contents : string)
    (others : list string) (result : gmap string string) :
  workspaceFolders w = Some (workspacePath :: others) ->
  readFile w (pathJoin [workspacePath; "." +:+ ConfigFolderName; localEnvFileName])
    = inr contents ->
  getLocalEnv w prefix = inr (Some result) ->
  result <> ∅ /\
  result !! "__proto__" = None /\
  forall k, k <> "__proto__" ->
            result !! k = kept (dotenvParse contents !! (prefix +:+ k)).
Proof.
  intros Hw Hr Hrun.
  apply getLocalEnv_Some_inv in Hrun
    as (workspacePath' & others' & contents' & Hw' & Hr' & -> & Hne).
  rewrite Hw in Hw'. injection Hw' as <- <-.
  rewrite Hr in Hr'. injection Hr' as <-.
  split; [done|]. split; [by rewrite selectByPrefix_lookup|].
  intros k Hk. by apply selectByPrefix_lookup_own.
Qed.

(** X15.  With a workspace folder open and its [local.env] readable,
    [getLocalEnv(prefix)] returns [undefined] exactly when the file has no
    variable that starts with the prefix, has a value that is not empty, and
    is not named [prefix + "__proto__"] (a name the returned object cannot
    hold). *)
Theorem getLocalEnv_undefined_iff (w : Surroundings)
    (prefix workspacePath contents : string) (others : list string) :
  workspaceFolders w = Some (workspacePath :: others) ->
  pathExists w (pathJoin [workspacePath; "." +:+ ConfigFolderName; localEnvFileName])
    = true ->
  readFile w (pathJoin [workspacePath; "." +:+ ConfigFolderName; localEnvFileName])
    = inr contents ->
  getLocalEnv w prefix = inr None <->
  forall k v, k <> "__proto__" ->
              dotenvParse contents !! (prefix +:+ k) = Some v -> v = "".
Proof.
  intros Hw He Hr. rewrite (getLocalEnv_read w prefix _ _ _ Hw He Hr).
  case_bool_decide as Hsize; split.
  - discriminate.
  - intros Hnone. exfalso.
    assert (selectByPrefix prefix (dotenvParse contents) <> ∅) as Hne.
    { apply map_size_non_empty_iff. lia. }
    apply map_choose in Hne as (k & v & Hk).
    rewrite selectByPrefix_lookup in Hk.
    case_bool_decide as Hproto; [done|].
    destruct (dotenvParse contents !! (prefix +:+ k)) as [v'|] eqn:Hv; [|done].
    rewrite (Hnone k v' Hproto Hv) in Hk. done.
  - intros _ k v Hproto Hv.
    assert (selectByPrefix prefix (dotenvParse contents) = ∅) as Hempty.
    { apply map_size_empty_iff. lia. }
    pose proof (selectByPrefix_lookup_own prefix (dotenvParse contents) k Hproto) as Hk.
    rewrite Hempty, lookup_empty, Hv in Hk. unfold kept, falsy in Hk.
    by case_bool_decide.
  - done.
Qed.

(** X16.  [getAuthServicePath] returns a path exactly when [getAuthLocalEnv]
    returns an object that holds that path under [SERVICE_PATH]. *)
Theorem getAuthServicePath_in_auth_env (w : Surroundings) (p : string) :
  getAuthServicePath w = inr (Some p) <->
  exists env, getAuthLocalEnv w = inr (Some env) /\ env !! "SERVICE_PATH" = Some p.
Proof.
  unfold getAuthServicePath, getAuthLocalEnv, getLocalEnv.
  destruct (workspaceFolders w) as [[|workspacePath others]|];
    [by split; [|intros (? & ? & _)]..| |by split; [|intros (? & ? & _)]].
  destruct (pathExists w _); simpl; [|by split; [|intros (? & ? & _)]].
  destruct (readFile w _) as [e|contents]; [by split; [|intros (? & ? & _)]|].
  assert (forall prefix k, k <> "__proto__" ->
            (if bool_decide (0 < size (selectByPrefix prefix (dotenvParse contents)))%nat
             then Some (selectByPrefix prefix (dotenvParse contents)) else None)
              ≫= (fun r : gmap string string => r !! k)
            = kept (dotenvParse contents !! (prefix +:+ k))) as Hread.
  { intros prefix k Hk. case_bool_decide as Hsize; simpl.
    - by apply selectByPrefix_lookup_own.
    - rewrite <- (selectByPrefix_lookup_own prefix _ k Hk).
      assert (selectByPrefix prefix (dotenvParse contents) = ∅) as ->.
      { apply map_size_empty_iff. lia. }
      by rewrite lookup_empty. }
  pose proof (Hread "" authServicePathEnvKey ltac:(discriminate)) as Hpath.
  pose proof (Hread authLocalEnvPrefix "SERVICE_PATH" ltac:(discriminate)) as Hauth.
  change (authLocalEnvPrefix +:+ "SERVICE_PATH") with authServicePathEnvKey in Hauth.
  change ("" +:+ authServicePathEnvKey) with authServicePathEnvKey in Hpath.
  split.
  - intros [= Hp].
    destruct (bool_decide (0 < size (selectByPrefix "" _))%nat); simpl in *; [|done].
    rewrite Hp in Hpath. rewrite <- Hpath in Hauth.
    destruct (bool_decide (0 < size (selectByPrefix authLocalEnvPrefix _))%nat);
      simpl in *; [|done].
    eauto.
  - intros (env & [= Henv] & Hp).
    destruct (bool_decide (0 < size (selectByPrefix authLocalEnvPrefix _))%nat);
      simpl in *; [|done].
    injection Henv as <-. rewrite Hp in Hauth. rewrite <- Hauth in Hpath.
    destruct (bool_decide (0 < size (selectByPrefix "" _))%nat); simpl in *; [|done].
    by rewrite Hpath.
Qed.

End LocalEnv.

Lemma getLocalEnv_lookup_witness :
  Debug.selectByPrefix "AUTH_"
    (Debug.dotenvParse (Packages := StubMore.packages) "local-env-contents") <> ∅ /\
  Debug.selectByPrefix "AUTH_"
    (Debug.dotenvParse (Packages := StubMore.packages) "local-env-contents")
    !! "__proto__" = None /\
  forall k, k <> "__proto__" ->
    Debug.selectByPrefix "AUTH_"
      (Debug.dotenvParse (Packages := StubMore.packages) "local-env-contents") !! k
    = Debug.kept (Debug.dotenvParse (Packages := StubMore.packages) "local-env-contents"
                    !! ("AUTH_" +:+ k)).
Proof.
  apply (@getLocalEnv_lookup StubMore.packages StubMore.workspace "AUTH_"
           "/work/app" "local-env-contents" []);
    [reflexivity | vm_compute; reflexivity | vm_compute; reflexivity].
Defined.

Lemma getLocalEnv_undefined_iff_witness :
  Debug.getLocalEnv (H := StubMore.packages) StubMore.workspace "BOT_" = inr None.
Proof.
  apply (@getLocalEnv_undefined_iff StubMore.packages StubMore.workspace "BOT_"
           "/work/app" "local-env-contents" [] eq_refl eq_refl eq_refl).
  intros k v _ Hv. exfalso. revert Hv.
  change (Debug.dotenvParse (Packages := StubMore.packages) "local-env-contents")
    with (list_to_map (M := gmap string string)
            [("AUTH_SERVICE_PATH", "/home/user/.fx/bin/simpleauth");
             ("AUTH_CLIENT_ID", "fake_client_id");
             ("AUTH_CLIENT_SECRET", "");
             ("FRONTEND_BROWSER", "none")]).
  simpl. rewrite !lookup_insert_ne by discriminate. by rewrite lookup_empty.
Defined.

Lemma parseToken_returns_iff_witness :
  exists info, SqlPlugin.parseToken (H := Stub.jwtDecoder) "user-v1" = inr info.
Proof.
  apply (@parseToken_returns_iff Stub.jwtDecoder "user-v1").
  eexists. split; [reflexivity|]. left. vm_compute. reflexivity.
Defined.

Lemma getToken_internal_error_iff_witness :
  exists msg,
    fst (getToken (H := Stub.utils) (H0 := StubMore.resolvesNull) Stub.userRead
           Stub.freshState) = inl (ErrorWithCode msg InternalError).
Proof.
  apply (@getToken_internal_error_iff Stub.utils StubMore.resolvesNull Stub.userRead
           Stub.freshState).
  split; [discriminate | reflexivity].
Defined.

Lemma getAuthServicePath_in_auth_env_witness :
  exists env,
    Debug.getAuthLocalEnv (H := StubMore.packages) StubMore.workspace = inr (Some env) /\
    env !! "SERVICE_PATH" = Some "/home/user/.fx/bin/simpleauth".
Proof.
  apply (@getAuthServicePath_in_auth_env StubMore.packages StubMore.workspace
           "/home/user/.fx/bin/simpleauth").
  vm_compute. reflexivity.
Defined.

(* ===================================================================== *)
(** * [runWithErrorCatchAndThrow] *)
(* ===================================================================== *)

Section RunWithErrorCatch.
Import FunctionPlugin.
Context `{Runtime} {T : Type}.

(** X17.  A value the callback returns comes through as it is.  When the
    callback throws, the caller of [runWithErrorCatchAndThrow] sees that very
    value if it is a [UserError] or a [SystemError].  Otherwise the handler
    calls [e.toString()]: if the call returns, the caller sees the supplied
    error; if the call throws, as it does for [undefined] and [null] and for
    an object without a working [toString], what it throws escapes instead. *)
Theorem runWithErrorCatchAndThrow_outcome (error : FunctionPluginError)
    (fn : Async T) (log : list string) :
  (forall v, fst (runWithErrorCatchAndThrow error fn log) = inr v <->
             fst (fn log) = inr v) /\
  (forall thrown, fst (fn log) = inl thrown ->
     fst (runWithErrorCatchAndThrow error fn log) =
     inl (if isUserOrSystemError thrown then thrown
          else match callToString thrown with
               | inl raised => raised
               | inr _ => PluginError error
               end)) /\
  (forall e, fst (runWithErrorCatchAndThrow error fn log) = inl e ->
             (isUserOrSystemError e = true /\ fst (fn log) = inl e) \/
             e = PluginError error \/
             (exists thrown, fst (fn log) = inl thrown /\
                             isUserOrSystemError thrown = false /\
                             callToString thrown = inl e)).
Proof.
  unfold runWithErrorCatchAndThrow.
  destruct (fn log) as [[thrown|v] log']; simpl.
  - destruct (isUserOrSystemError thrown) eqn:Hkind; simpl.
    + split; [done|]. split; [by intros ? [= <-]; rewrite Hkind|].
      intros e [= <-]. by left.
    + destruct (callToString thrown) as [raised|line] eqn:Hcall; simpl.
      * split; [done|]. split; [by intros ? [= <-]; rewrite Hkind, Hcall|].
        intros e [= <-]. right. right. by exists thrown.
      * split; [done|]. split; [by intros ? [= <-]; rewrite Hkind, Hcall|].
        intros e [= <-]. right. by left.
  - split; [done|]. split; discriminate.
Qed.

(** X18.  Wrapping twice, the outer error wins: provided [toString()]
    returns on what the callback throws and on the inner error, the caller
    sees what it would see had the callback been wrapped with the outer error
    alone. *)
Theorem runWithErrorCatchAndThrow_nested (outer inner : FunctionPluginError)
    (fn : Async T) (log : list string) :
  (forall thrown, fst (fn log) = inl thrown -> isUserOrSystemError thrown = false ->
                  exists line, callToString thrown = inr line) ->
  (exists line, callToString (PluginError inner) = inr line) ->
  fst (runWithErrorCatchAndThrow outer (runWithErrorCatchAndThrow inner fn) log)
  = fst (runWithErrorCatchAndThrow outer fn log).
Proof.
  intros Hthrown [innerLine Hinner].
  unfold runWithErrorCatchAndThrow.
  destruct (fn log) as [[thrown|v] log']; simpl in *; [|done].
  destruct (isUserOrSystemError thrown) eqn:Hkind; simpl; [by rewrite Hkind|].
  destruct (Hthrown thrown eq_refl Hkind) as [line Hline].
  rewrite Hline. simpl. unfold callToString in Hinner. by rewrite Hinner.
Qed.

End RunWithErrorCatch.

Lemma runWithErrorCatchAndThrow_outcome_witness :
  fst (FunctionPlugin.runWithErrorCatchAndThrow (H := StubMore.runtime) StubMore.errorNew
         (StubMore.rejects (FunctionPlugin.UserError "ut-name" "ut-msg" "ut-source")) [])
  = inl (FunctionPlugin.UserError "ut-name" "ut-msg" "ut-source") /\
  fst (FunctionPlugin.runWithErrorCatchAndThrow (H := StubMore.runtime) StubMore.errorNew
         (StubMore.rejects (FunctionPlugin.OtherError "Error: ut-name")) [])
  = inl (FunctionPlugin.PluginError StubMore.errorNew) /\
  fst (FunctionPlugin.runWithErrorCatchAndThrow (H := StubMore.runtime) StubMore.errorNew
         (StubMore.rejects (FunctionPlugin.OtherError "no toString")) [])
  = inl (FunctionPlugin.OtherError "TypeError: e.toString is not a function").
Proof.
  split; [|split].
  - destruct (@runWithErrorCatchAndThrow_outcome StubMore.runtime unit StubMore.errorNew
                (StubMore.rejects
                   (FunctionPlugin.UserError "ut-name" "ut-msg" "ut-source")) [])
      as (_ & Hthrown & _).
    exact (Hthrown _ eq_refl).
  - destruct (@runWithErrorCatchAndThrow_outcome StubMore.runtime unit StubMore.errorNew
                (StubMore.rejects (FunctionPlugin.OtherError "Error: ut-name")) [])
      as (_ & Hthrown & _).
    exact (Hthrown _ eq_refl).
  - destruct (@runWithErrorCatchAndThrow_outcome StubMore.runtime unit StubMore.errorNew
                (StubMore.rejects (FunctionPlugin.OtherError "no toString")) [])
      as (_ & Hthrown & _).
    exact (Hthrown _ eq_refl).
Defined.

Lemma runWithErrorCatchAndThrow_nested_witness :
  fst (FunctionPlugin.runWithErrorCatchAndThrow (H := StubMore.runtime) StubMore.errorNew
         (FunctionPlugin.runWithErrorCatchAndThrow (H := StubMore.runtime)
            (FunctionPlugin.newFunctionPluginError FunctionPlugin.User "inner" "inner" [])
            (StubMore.rejects (FunctionPlugin.OtherError "Error: ut-name"))) [])
  = fst (FunctionPlugin.runWithErrorCatchAndThrow (H := StubMore.runtime)
           StubMore.errorNew
           (StubMore.rejects (FunctionPlugin.OtherError "Error: ut-name")) []).
Proof.
  apply (@runWithErrorCatchAndThrow_nested StubMore.runtime unit).
  - intros thrown [= <-] _. eexists. reflexivity.
  - eexists. reflexivity.
Defined.

(* ===================================================================== *)
(** * [getSiteEnvelope] *)
(* ===================================================================== *)

Section SiteEnvelope.
Import BotPlugin.

Lemma alloc_fresh (elements : list NameValuePair) (heap : gmap Ref (list NameValuePair)) :
  heap !! (alloc elements heap).1 = None.
Proof. simpl. apply not_elem_of_dom, is_fresh. Qed.

Lemma push_all (array : Ref) (ps elements : list NameValuePair)
    (heap : gmap Ref (list NameValuePair)) :
  heap !! array = Some elements ->
  foldl (fun heap p => push array p heap) heap ps = <[array := elements ++ ps]> heap.
Proof.
  revert elements heap. induction ps as [|p ps IH]; intros elements heap Hin; simpl.
  - rewrite app_nil_r. by rewrite insert_id.
  - rewrite (IH (elements ++ [p])).
    + unfold push. rewrite <- app_assoc. simpl.
      apply map_eq. intros r. destruct (decide (r = array)) as [->|Hr].
      * by rewrite !lookup_insert_eq.
      * by rewrite !lookup_insert_ne, lookup_alter_ne.
    + unfold push. by rewrite lookup_alter_eq, Hin.
Qed.

Lemma getSiteEnvelope_given (language : ProgrammingLanguage)
    (plan place : string) (array : Ref) (settings : list NameValuePair)
    (heap : gmap Ref (list NameValuePair)) :
  heap !! array = Some settings ->
  getSiteEnvelope language plan place (Some array) heap =
  ({| location := place; serverFarmId := plan;
      siteConfig := {| appSettings := fresh (dom heap) |} |},
   <[fresh (dom heap) := settings ++ defaultSettings]>
     (<[array := settings ++ defaultSettings]> heap)).
Proof.
  intros Hin. unfold getSiteEnvelope. simpl.
  set (site := fresh (dom heap)).
  assert (heap !! site = None) as Hfresh by apply not_elem_of_dom, is_fresh.
  assert (site <> array) as Hne by congruence.
  f_equal.
  change (push array {| name := "WEBSITE_NODE_DEFAULT_VERSION"; value := "12.13.0" |}
            (push array {| name := "SCM_DO_BUILD_DURING_DEPLOYMENT"; value := "true" |}
               (<[site := []]> heap)))
    with (foldl (fun heap p => push array p heap) (<[site := []]> heap) defaultSettings).
  rewrite (push_all array defaultSettings settings) by by rewrite lookup_insert_ne.
  unfold elementsOf. rewrite lookup_insert_eq. simpl.
  rewrite (push_all site _ []) by by rewrite lookup_insert_ne, lookup_insert_eq.
  simpl. apply map_eq. intros r.
  destruct (decide (r = site)) as [->|Hsite]; [by rewrite !lookup_insert_eq|].
  rewrite !(lookup_insert_ne _ site) by done.
  destruct (decide (r = array)) as [->|Harray]; [by rewrite !lookup_insert_eq|].
  by rewrite !lookup_insert_ne.
Qed.

(** X19.  Given the caller's array of settings, [getSiteEnvelope] appends the
    two default settings to that very array, and the envelope's own array, a
    new one, holds the same elements: the caller's settings and then the two
    defaults.  No other array changes. *)
Theorem getSiteEnvelope_appends (language : ProgrammingLanguage)
    (plan place : string) (array : Ref) (settings : list NameValuePair)
    (heap : gmap Ref (list NameValuePair)) :
  heap !! array = Some settings ->
  let site := fst (getSiteEnvelope language plan place (Some array) heap) in
  let heap' := snd (getSiteEnvelope language plan place (Some array) heap) in
  heap !! appSettings (siteConfig site) = None /\
  heap' !! appSettings (siteConfig site) = Some (settings ++ defaultSettings) /\
  heap' !! array = Some (settings ++ defaultSettings) /\
  (forall other, other <> array -> other <> appSettings (siteConfig site) ->
                 heap' !! other = heap !! other).
Proof.
  intros Hin site heap'. subst site heap'.
  rewrite (getSiteEnvelope_given _ _ _ _ _ _ Hin). cbn [fst snd siteConfig appSettings].
  assert (heap !! fresh (dom heap) = None) as Hfresh by apply not_elem_of_dom, is_fresh.
  assert (array <> fresh (dom heap)) as Hne by congruence.
  split; [done|]. split; [by rewrite lookup_insert_eq|].
  split; [by rewrite lookup_insert_ne, lookup_insert_eq|].
  intros other H1 H2. by rewrite !lookup_insert_ne.
Qed.

(** X20.  So the array is not safe to pass twice: the envelope of a second
    call with the same array holds the default settings twice. *)
Theorem getSiteEnvelope_twice (language : ProgrammingLanguage)
    (plan place : string) (array : Ref) (settings : list NameValuePair)
    (heap : gmap Ref (list NameValuePair)) :
  heap !! array = Some settings ->
  let heap1 := snd (getSiteEnvelope language plan place (Some array) heap) in
  let site2 := fst (getSiteEnvelope language plan place (Some array) heap1) in
  let heap2 := snd (getSiteEnvelope language plan place (Some array) heap1) in
  heap2 !! appSettings (siteConfig site2)
  = Some (settings ++ defaultSettings ++ defaultSettings).
Proof.
  intros Hin heap1 site2 heap2. subst heap1 site2 heap2.
  assert (heap !! fresh (dom heap) = None) as Hfresh by apply not_elem_of_dom, is_fresh.
  assert (array <> fresh (dom heap)) as Hne by congruence.
  rewrite (getSiteEnvelope_given _ _ _ _ _ _ Hin). cbn [fst snd].
  rewrite (getSiteEnvelope_given _ _ _ _ (settings ++ defaultSettings))
    by by rewrite lookup_insert_ne, lookup_insert_eq.
  cbn [fst snd siteConfig appSettings].
  rewrite lookup_insert_eq. by rewrite <- app_assoc.
Qed.

End SiteEnvelope.

Lemma getSiteEnvelope_appends_witness :
  snd (BotPlugin.getSiteEnvelope BotPlugin.TypeScript "plan" "westus" (Some 1%positive)
         StubMore.heap) !! 1%positive
  = Some (StubMore.callerSettings ++ BotPlugin.defaultSettings).
Proof.
  apply (getSiteEnvelope_appends BotPlugin.TypeScript "plan" "westus" 1%positive
           StubMore.callerSettings StubMore.heap eq_refl).
Defined.

Lemma getSiteEnvelope_twice_witness :
  snd (BotPlugin.getSiteEnvelope BotPlugin.TypeScript "plan" "westus" (Some 1%positive)
         (snd (BotPlugin.getSiteEnvelope BotPlugin.TypeScript "plan" "westus"
                 (Some 1%positive) StubMore.heap)))
  !! BotPlugin.appSettings (BotPlugin.siteConfig
       (fst (BotPlugin.getSiteEnvelope BotPlugin.TypeScript "plan" "westus"
               (Some 1%positive)
               (snd (BotPlugin.getSiteEnvelope BotPlugin.TypeScript "plan" "westus"
                       (Some 1%positive) StubMore.heap)))))
  = Some (StubMore.callerSettings ++ BotPlugin.defaultSettings ++ BotPlugin.defaultSettings).
Proof.
  apply (getSiteEnvelope_twice BotPlugin.TypeScript "plan" "westus" 1%positive
           StubMore.callerSettings StubMore.heap eq_refl).
Defined.

(* ===================================================================== *)
(** * [initialLocalEnvs] *)
(* ===================================================================== *)

Section InitialLocalEnvsFacts.
Import LocalDebug.
Context `{Constants}.

Lemma initialise_lookup (keys : list string) (localEnvs : gmap string string)
    (k : string) :
  initialise keys localEnvs !! k =
  if decide (k ∈ keys) then Some "" else localEnvs !! k.
Proof.
  unfold initialise. revert localEnvs.
  induction keys as [|key keys IH]; intros localEnvs; cbn [foldl].
  - rewrite decide_False; [done|]. apply not_elem_of_nil.
  - rewrite IH. destruct (decide (k ∈ keys)) as [Hin|Hout].
    + rewrite decide_True; [done|]. by right.
    + destruct (decide (k = key)) as [->|Hk].
      * rewrite lookup_insert_eq, decide_True; [done|]. by left.
      * rewrite lookup_insert_ne by done. rewrite decide_False; [done|].
        by intros [?|?]%elem_of_cons.
Qed.

Lemma initialise_is_Some (keys : list string) (localEnvs : gmap string string)
    (k : string) :
  is_Some (initialise keys localEnvs !! k) <-> k ∈ keys \/ is_Some (localEnvs !! k).
Proof.
  rewrite initialise_lookup. destruct (decide (k ∈ keys)); split; eauto.
  by intros [?|?].
Qed.

Lemma insert_is_Some (key value : string) (localEnvs : gmap string string) (k : string) :
  is_Some (<[key := value]> localEnvs !! k) <-> k = key \/ is_Some (localEnvs !! k).
Proof.
  rewrite lookup_insert_is_Some. split.
  - intros [->|[_ ?]]; eauto.
  - intros [->|?]; [by left|]. destruct (decide (key = k)); [by left|by right].
Qed.

(** X21.  The variables [initialLocalEnvs] sets up are the auth keys, the
    frontend keys when the frontend is included, the backend keys when both
    frontend and backend are included, and the bot keys when the bot is
    included: asking for the backend without the frontend adds nothing. *)
Theorem initialLocalEnvs_keys (includeFrontend includeBackend includeBot : bool)
    (k : string) :
  is_Some (initialLocalEnvs includeFrontend includeBackend includeBot !! k) <->
  k ∈ LocalEnvAuthKeys \/
  (includeFrontend = true /\
   (k ∈ LocalEnvFrontendKeys \/ (includeBackend = true /\ k ∈ LocalEnvBackendKeys))) \/
  (includeBot = true /\ k ∈ LocalEnvBotKeys).
Proof.
  assert (k = LocalEnvAuthKeys_Urls -> k ∈ LocalEnvAuthKeys) as Hurls
    by (intros ->; apply Urls_member).
  assert (k = LocalEnvFrontendKeys_Browser -> k ∈ LocalEnvFrontendKeys) as Hbrowser
    by (intros ->; apply Browser_member).
  assert (k = LocalEnvFrontendKeys_Https -> k ∈ LocalEnvFrontendKeys) as Hhttps
    by (intros ->; apply Https_member).
  assert (k = LocalEnvBackendKeys_FuncWorkerRuntime -> k ∈ LocalEnvBackendKeys) as Hfunc
    by (intros ->; apply FuncWorkerRuntime_member).
  assert (is_Some ((∅ : gmap string string) !! k) <-> False) as Hempty.
  { rewrite lookup_empty. split; [by intros [? ?]|done]. }
  unfold initialLocalEnvs.
  destruct includeFrontend, includeBackend, includeBot;
    repeat first [ rewrite initialise_is_Some | rewrite insert_is_Some ];
    rewrite Hempty; intuition discriminate.
Qed.

(** X22.  The auth service URL variable comes out as
    ["http://localhost:5000"], provided no frontend, backend or bot key has the
    same name (a later group would set it back to the empty string). *)
Theorem initialLocalEnvs_urls (includeFrontend includeBackend includeBot : bool) :
  LocalEnvAuthKeys_Urls ∉ LocalEnvFrontendKeys ->
  LocalEnvAuthKeys_Urls ∉ LocalEnvBackendKeys ->
  LocalEnvAuthKeys_Urls ∉ LocalEnvBotKeys ->
  initialLocalEnvs includeFrontend includeBackend includeBot !! LocalEnvAuthKeys_Urls
  = Some "http://localhost:5000".
Proof.
  intros Hf Hb Ht.
  pose proof Browser_member. pose proof Https_member.
  pose proof FuncWorkerRuntime_member.
  assert (LocalEnvAuthKeys_Urls <> LocalEnvFrontendKeys_Browser) by congruence.
  assert (LocalEnvAuthKeys_Urls <> LocalEnvFrontendKeys_Https) by congruence.
  assert (LocalEnvAuthKeys_Urls <> LocalEnvBackendKeys_FuncWorkerRuntime) by congruence.
  assert (forall keys m, LocalEnvAuthKeys_Urls ∉ keys ->
            initialise keys m !! LocalEnvAuthKeys_Urls = m !! LocalEnvAuthKeys_Urls)
    as Hskip.
  { intros keys m Hout. by rewrite initialise_lookup, decide_False. }
  unfold initialLocalEnvs.
  destruct includeFrontend, includeBackend, includeBot;
    rewrite ?Hskip, ?lookup_insert_ne, ?Hskip, ?lookup_insert_ne, ?lookup_insert_ne,
      ?Hskip by done;
    by rewrite lookup_insert_eq.
Qed.

End InitialLocalEnvsFacts.

Lemma initialLocalEnvs_keys_witness :
  ~ is_Some (LocalDebug.initialLocalEnvs (H := StubMore.constants) false true false
               !! "BACKEND_FUNCTIONS_WORKER_RUNTIME").
Proof.
  intros Hthere.
  apply (@initialLocalEnvs_keys StubMore.constants false true false) in Hthere.
  destruct Hthere as [Hauth|[[Hfrontend _]|[Hbot _]]]; [|discriminate..].
  apply elem_of_cons in Hauth as [?|Hauth]; [discriminate|].
  apply elem_of_cons in Hauth as [?|Hauth]; [discriminate|].
  by apply not_elem_of_nil in Hauth.
Defined.

Lemma initialLocalEnvs_urls_witness :
  LocalDebug.initialLocalEnvs (H := StubMore.constants) true true true !! "AUTH_urls"
  = Some "http://localhost:5000".
Proof.
  apply (@initialLocalEnvs_urls StubMore.constants true true true);
    intros Hin; repeat (apply elem_of_cons in Hin as [?|Hin]; [discriminate|]);
    by apply not_elem_of_nil in Hin.
Defined.

(* ===================================================================== *)
(** * The bot plugin's [init] *)
(* ===================================================================== *)

Section BotInit.
Import BotPlugin.

Lemma initEach_set (accessTokens : list string) (instance : AxiosInstance) :
  initEach accessTokens (Some instance) = Some instance.
Proof. induction accessTokens as [|t ts IH]; [done|]. exact IH. Qed.

(** X23.  The first token wins.  Starting without a client, after any number
    of [init] calls the client carries the first non-empty access token that
    was passed, as [Bearer] header; tokens passed later are ignored, and with
    no non-empty token there is still no client. *)
Theorem initEach_first_token (accessTokens : list string) :
  initEach accessTokens None =
  (fun t => {| postAuthorization := "Bearer " +:+ t |})
    <$> head (List.filter (fun t => negb (falsy (Some t))) accessTokens).
Proof.
  induction accessTokens as [|t ts IH]; [done|].
  unfold initEach in *. cbn [foldl List.filter]. unfold init at 2.
  destruct (negb (falsy (Some t))); cbn [snd]; [|exact IH].
  apply initEach_set.
Qed.

End BotInit.
